(** * i-lock-u Express backend: handlers, models and token utility

    A shallow embedding of [index.js] (route table and handlers),
    [models/index.js] (model definitions and associations), [sync.js]
    (the schema is created from the models) and [token.js] (the token
    generation script), with the properties of the written specification
    stated and proved over it.

    Conventions.
    - JavaScript values are [jsval]; numbers are integers ([Z]), floating
      point is outside the model.
    - An [await]ed promise that rejects and a [throw] are both [Throw];
      [try { .. } catch (err) { .. }] is a [match] on a [result].
    - The database is an explicit value threaded through every handler:
      a handler is a function [request -> database -> response * database].
    - Sequelize and PostgreSQL (the [JSONB] column needs it) are libraries,
      not code of this repository: their behaviour is modelled in
      [Module Sequelize] as far as the handlers observe it, on the schema
      that [sync.js] creates from the model definitions.  What the two
      make of a single value (the reading of a key, the coercion of a
      value to the type of its column) is a parameter of the model,
      [Conversions], so that the properties hold whatever these
      conversions are.
    - Left out of the model of Sequelize are the automatically maintained
      [createdAt] and [updatedAt] columns, and the nested assignment by
      which a body key such as [TransactionData.a] sets a path inside a
      JSON column; the properties about single columns leave the JSON
      column out. *)

From Stdlib Require Import ZArith String Ascii DecimalString DecimalZ.
From stdpp Require Import base decidable option list gmap strings.

Local Open Scope Z_scope.
Local Set Warnings "-register-all".

(** ** JavaScript values *)

Inductive jsval : Type :=
| Undefined
| Null
| Bool (b : bool)
| Num (n : Z)
| Str (s : string)
| Arr (xs : list jsval)
| Obj (fields : list (string * jsval)).

(** Property lookup in the field list of an object literal. *)
Fixpoint field (fs : list (string * jsval)) (k : string) : jsval :=
  match fs with
  | [] => Undefined
  | (k', v) :: rest => if String.eqb k' k then v else field rest k
  end.

(** [o.k]: a property that is not there reads as [undefined]. *)
Definition prop (o : jsval) (k : string) : jsval :=
  match o with
  | Obj fs => field fs k
  | _ => Undefined
  end.

Definition is_undefined (v : jsval) : bool :=
  match v with
  | Undefined => true
  | _ => false
  end.

(** Structural equality of values, as a boolean. *)
Fixpoint jsval_eqb (a b : jsval) : bool :=
  match a, b with
  | Undefined, Undefined => true
  | Null, Null => true
  | Bool x, Bool y => Bool.eqb x y
  | Num x, Num y => Z.eqb x y
  | Str x, Str y => String.eqb x y
  | Arr xs, Arr ys =>
      (fix go (xs ys : list jsval) : bool :=
         match xs, ys with
         | [], [] => true
         | x :: xs', y :: ys' => jsval_eqb x y && go xs' ys'
         | _, _ => false
         end) xs ys
  | Obj fs, Obj gs =>
      (fix go (fs gs : list (string * jsval)) : bool :=
         match fs, gs with
         | [], [] => true
         | (k, x) :: fs', (l, y) :: gs' =>
             String.eqb k l && jsval_eqb x y && go fs' gs'
         | _, _ => false
         end) fs gs
  | _, _ => false
  end.

(** Induction on values that goes through the lists of arrays and objects. *)
Section JsvalInd.
Variable P : jsval -> Prop.
Hypothesis HUndefined : P Undefined.
Hypothesis HNull : P Null.
Hypothesis HBool : ∀ b, P (Bool b).
Hypothesis HNum : ∀ n, P (Num n).
Hypothesis HStr : ∀ s, P (Str s).
Hypothesis HArr : ∀ xs, Forall P xs -> P (Arr xs).
Hypothesis HObj : ∀ fs, Forall (λ c, P c.2) fs -> P (Obj fs).

Fixpoint jsval_nested_ind (v : jsval) : P v :=
  match v with
  | Undefined => HUndefined
  | Null => HNull
  | Bool b => HBool b
  | Num n => HNum n
  | Str s => HStr s
  | Arr xs =>
      HArr xs
        ((fix all (l : list jsval) : Forall P l :=
            match l with
            | [] => Forall_nil_2 P
            | x :: l' => Forall_cons_2 P x l' (jsval_nested_ind x) (all l')
            end) xs)
  | Obj fs =>
      HObj fs
        ((fix all (l : list (string * jsval)) : Forall (λ c, P c.2) l :=
            match l with
            | [] => Forall_nil_2 _
            | c :: l' => Forall_cons_2 (λ c, P c.2) c l' (jsval_nested_ind c.2) (all l')
            end) fs)
  end.
End JsvalInd.

(** ** Exceptions and results *)

Record exn : Type := Exn { exn_name : string; message : string }.

Inductive result (A : Type) : Type :=
| Ok (a : A)
| Throw (e : exn).
Arguments Ok {A} a.
Arguments Throw {A} e.

Global Instance result_ret : MRet result := λ A a, Ok a.

Global Instance result_bind : MBind result := λ A B k r,
  match r with
  | Ok a => k a
  | Throw e => Throw e
  end.

Definition ReferenceError (msg : string) : exn := Exn "ReferenceError" msg.
Definition TypeError (msg : string) : exn := Exn "TypeError" msg.
Definition Error (msg : string) : exn := Exn "Error" msg.

(** ** Module scopes

    An identifier that no declaration of the module and no global of the
    runtime binds raises a [ReferenceError] when it is evaluated. *)

Definition node_globals : list string :=
  ["process"; "console"; "require"; "module"; "exports"; "global";
   "Buffer"; "__dirname"; "__filename"].

Definition resolve (declared : list string) (x : string) : result unit :=
  if bool_decide (x ∈ declared ++ node_globals) then Ok tt
  else Throw (ReferenceError (x +:+ " is not defined")).

(** ** models/index.js

    The five models that [index.js] imports are the ones this file
    defines itself; whatever it loads from the other files of its
    directory is overwritten under these five names. *)

Inductive data_type : Type :=
| INTEGER | STRING | TEXT | DATEONLY | DATE | BLOB | JSONB.

Inductive model : Type :=
| User | DID | Resource | Document | DocumentTransaction.

Record attribute : Type := Attr {
  attr_name : string;
  attr_type : data_type;
  primaryKey : bool;
  autoIncrement : bool
}.

Definition column (n : string) (t : data_type) : attribute := Attr n t false false.

(** The first argument of [sequelize.define]. *)
Definition name (m : model) : string :=
  match m with
  | User => "User"
  | DID => "DID"
  | Resource => "Resource"
  | Document => "Document"
  | DocumentTransaction => "DocumentTransaction"
  end.

(** The second argument of [sequelize.define]. *)
Definition define (m : model) : list attribute :=
  match m with
  | User =>
      [ Attr "UserID" INTEGER true true;
        column "Name" STRING;
        column "Email" STRING;
        column "PhoneNumber" STRING;
        column "LoginPIN" STRING;
        column "DateOfBirth" DATEONLY;
        column "AadhaarNumber" STRING;
        column "PANNumber" STRING;
        column "UserImage" BLOB ]
  | DID =>
      [ Attr "ID" STRING true false;
        column "Controller" STRING;
        column "Created" DATE;
        column "Updated" DATE;
        column "DIDDocument" TEXT ]
  | Resource =>
      [ Attr "ResourceID" STRING true false;
        column "Payload" TEXT ]
  | Document =>
      [ Attr "DocumentID" INTEGER true true;
        column "Content" BLOB;
        column "Created" DATE;
        column "Updated" DATE ]
  | DocumentTransaction =>
      [ Attr "TransactionID" INTEGER true true;
        column "TransactionData" JSONB ]
  end.

(** [Parent.hasMany(Child, { foreignKey })] with the matching [belongsTo]. *)
Record association : Type := HasMany {
  parent : model;
  child : model;
  foreignKey : string
}.

Definition associations : list association :=
  [ HasMany User Document "OwnerID";
    HasMany DID Resource "DIDID";
    HasMany Document DocumentTransaction "DocumentID" ].

Global Instance model_eq_dec : EqDecision model.
Proof. solve_decision. Defined.

Global Instance data_type_eq_dec : EqDecision data_type.
Proof. solve_decision. Defined.

Global Instance attribute_eq_dec : EqDecision attribute.
Proof. solve_decision. Defined.

Global Instance association_eq_dec : EqDecision association.
Proof. solve_decision. Defined.

(** ** The schema that [sync.js] creates

    [sequelize.sync({ force: true })] creates one table per model, with
    the columns of the model and, in the table of each [child], the
    foreign key column of its association, typed as the primary key it
    references. *)

Definition primaryKeyAttribute (m : model) : attribute :=
  default (column "id" INTEGER) (head (filter (λ a, primaryKey a) (define m))).

Definition key_type (m : model) : data_type := attr_type (primaryKeyAttribute m).

Definition references (m : model) : list association :=
  filter (λ a, child a = m) associations.

Definition dependents (m : model) : list association :=
  filter (λ a, parent a = m) associations.

Definition rawAttributes (m : model) : list attribute :=
  define m ++ ((λ a, column (foreignKey a) (key_type (parent a))) <$> references m).

Definition has_column (m : model) (k : string) : bool :=
  bool_decide (k ∈ attr_name <$> rawAttributes m).

(** Primary key values: integers for the auto-increment models, strings
    for [DID] and [Resource]. *)
Inductive pk : Type :=
| PkInt (n : Z)
| PkStr (s : string).

Global Instance pk_eq_dec : EqDecision pk.
Proof. solve_decision. Defined.

Global Program Instance pk_countable : Countable pk :=
  inj_countable'
    (λ k, match k with PkInt n => inl n | PkStr s => inr s end)
    (λ x, match x with inl n => PkInt n | inr s => PkStr s end) _.
Next Obligation. by intros []. Qed.

Definition pk_value (k : pk) : jsval :=
  match k with
  | PkInt n => Num n
  | PkStr s => Str s
  end.

(** Decimal notation of an integer, as [String(n)] prints it, and its
    reading back. *)
Definition decimal (n : Z) : string := NilZero.string_of_int (Z.to_int n).

Definition parse_decimal (s : string) : option Z :=
  Z.of_int <$> NilZero.int_of_string s.

(** [String(v)] for a key value: the path segment that names the row. *)
Definition identifier (v : jsval) : string :=
  match v with
  | Num n => decimal n
  | Str s => s
  | _ => ""
  end.

(** The range of the database's [integer] type, which an [INTEGER] column
    has. *)
Definition int4 (n : Z) : Prop := -2147483648 ≤ n ≤ 2147483647.

Global Instance int4_dec (n : Z) : Decision (int4 n).
Proof. unfold int4. apply _. Defined.

(** ** What the libraries make of a value

    [index.js] hands path segments and request bodies to Sequelize as they
    come.  What becomes of a value depends on the type of the column it is
    meant for, and is decided by Sequelize's data types and by the input
    and output functions of PostgreSQL, not by code of this repository:
    the model takes these conversions as parameters.
    - [key_in t s] is the key that the literal [s] denotes when the
      database compares it with, or stores it in, a key column of type
      [t], if it denotes one.
    - [instance_value a v] is what a Sequelize instance holds, and shows
      when it is serialised, once it has been given [v] for the attribute
      [a].
    - [column_value a v] is what the column of [a] holds, and gives back
      when read, once [v] has been written to it, or the refusal of [v] by
      Sequelize's validation or by the database.
    Three facts about the reading of keys are assumed: a key is read back
    from its own notation, an [INTEGER] key is an integer of the
    database's range, and every such integer is read from its decimal
    notation. *)
Class Conversions : Type := {
  key_in : data_type -> string -> option pk;
  instance_value : attribute -> jsval -> jsval;
  column_value : attribute -> jsval -> result jsval;
  key_in_notation t s k :
    key_in t s = Some k -> key_in t (identifier (pk_value k)) = Some k;
  key_in_int4 s k :
    key_in INTEGER s = Some k -> ∃ n, k = PkInt n ∧ int4 n;
  key_in_decimal n :
    int4 n -> key_in INTEGER (decimal n) = Some (PkInt n)
}.

(** What a value denotes when it is compared with, or stored in, a key
    column of the given type: a number is sent in decimal notation, a
    string as it is. *)
Definition coerce_key {conv : Conversions} (t : data_type) (v : jsval) : option pk :=
  match v with
  | Num n => key_in t (decimal n)
  | Str s => key_in t s
  | _ => None
  end.

(** A row holds one value per column, in the order of [rawAttributes]. *)
Abbreviation row := (list (string * jsval)).

Fixpoint set_field (r : row) (k : string) (v : jsval) : row :=
  match r with
  | [] => []
  | (k', x) :: rest =>
      if String.eqb k' k then (k', v) :: rest else (k', x) :: set_field rest k v
  end.

Record table : Type := Table {
  rows : gmap pk row;
  next_id : Z            (* the sequence behind an auto-increment key *)
}.

Record database : Type := Database {
  Users : table;
  DIDs : table;
  Resources : table;
  Documents : table;
  DocumentTransactions : table;
  unreachable : option string   (* the connection error, when the server is down *)
}.

Definition table_of (m : model) (db : database) : table :=
  match m with
  | User => Users db
  | DID => DIDs db
  | Resource => Resources db
  | Document => Documents db
  | DocumentTransaction => DocumentTransactions db
  end.

Definition with_table (m : model) (t : table) (db : database) : database :=
  match m with
  | User => Database t (DIDs db) (Resources db) (Documents db) (DocumentTransactions db) (unreachable db)
  | DID => Database (Users db) t (Resources db) (Documents db) (DocumentTransactions db) (unreachable db)
  | Resource => Database (Users db) (DIDs db) t (Documents db) (DocumentTransactions db) (unreachable db)
  | Document => Database (Users db) (DIDs db) (Resources db) t (DocumentTransactions db) (unreachable db)
  | DocumentTransaction => Database (Users db) (DIDs db) (Resources db) (Documents db) t (unreachable db)
  end.

Definition empty_table : table := Table ∅ 1.

(** The database right after [sync.js] has run. *)
Definition synced : database :=
  Database empty_table empty_table empty_table empty_table empty_table None.

(** ** The storage layer, as the handlers observe it *)

Module Sequelize.

Definition ConnectionError (msg : string) : exn := Exn "SequelizeConnectionError" msg.
Definition DatabaseError (msg : string) : exn := Exn "SequelizeDatabaseError" msg.
Definition ValidationError (msg : string) : exn := Exn "SequelizeValidationError" msg.
Definition UniqueConstraintError : exn :=
  Exn "SequelizeUniqueConstraintError" "Validation error".
Definition ForeignKeyConstraintError (msg : string) : exn :=
  Exn "SequelizeForeignKeyConstraintError" msg.

(** Every statement needs the connection. *)
Definition query (db : database) : result unit :=
  match unreachable db with
  | Some msg => Throw (ConnectionError msg)
  | None => Ok tt
  end.

Section Storage.
Context {conv : Conversions}.

(** What a write leaves in the column of an attribute: NULL when no value
    is given, and otherwise what validation and the database make of the
    given one. *)
Definition validate (a : attribute) (v : jsval) : result jsval :=
  match v with
  | Undefined | Null => Ok Null
  | _ => column_value a v
  end.

(** [Model.build(values)]: only the attributes of the model are read from
    [values]; any other key is ignored. *)
Fixpoint build (attrs : list attribute) (values : jsval) : result row :=
  match attrs with
  | [] => Ok []
  | a :: rest =>
      v ← validate a (prop values (attr_name a));
      r ← build rest values;
      Ok ((attr_name a, v) :: r)
  end.

(** [instance.set(values)] on a stored row, as the instance shows it
    afterwards: an attribute that [values] does not give keeps its value,
    and so does the primary key. *)
Fixpoint assign (attrs : list attribute) (old : row) (values : jsval) : row :=
  match attrs with
  | [] => []
  | a :: rest =>
      (attr_name a,
       match prop values (attr_name a) with
       | Undefined => field old (attr_name a)
       | x =>
           if primaryKey a then field old (attr_name a)
           else match x with
                | Null => Null
                | _ => instance_value a x
                end
       end) :: assign rest old values
  end.

(** The row that the statement of [instance.update(values)] leaves in the
    table: the attributes that [values] gives are written, the others and
    the primary key are not. *)
Fixpoint merge (attrs : list attribute) (old : row) (values : jsval) : result row :=
  match attrs with
  | [] => Ok []
  | a :: rest =>
      v ← (match prop values (attr_name a) with
           | Undefined => Ok (field old (attr_name a))
           | x => if primaryKey a then Ok (field old (attr_name a)) else validate a x
           end);
      r ← merge rest old values;
      Ok ((attr_name a, v) :: r)
  end.

(** Whether the database can read the value of a foreign key column. *)
Definition readable (r : row) (a : association) : bool :=
  match field r (foreignKey a) with
  | Null => true
  | v => bool_decide (is_Some (coerce_key (key_type (parent a)) v))
  end.

(** A foreign key that is not NULL has to name a stored row of the
    parent table. *)
Definition link (db : database) (r : row) (a : association) : result row :=
  match field r (foreignKey a) with
  | Null => Ok r
  | v =>
      match coerce_key (key_type (parent a)) v with
      | None =>
          Throw (DatabaseError ("invalid input syntax for column " +:+ foreignKey a))
      | Some k =>
          if bool_decide (is_Some (rows (table_of (parent a) db) !! k))
          then Ok (set_field r (foreignKey a) (pk_value k))
          else Throw (ForeignKeyConstraintError
                        ("insert or update violates foreign key constraint on "
                         +:+ foreignKey a))
      end
  end.

Fixpoint link_all (db : database) (r : row) (l : list association) : result row :=
  match l with
  | [] => Ok r
  | a :: rest => r' ← link db r a; link_all db r' rest
  end.

(** The key of a stored instance. *)
Definition key_of (m : model) (r : row) : option pk :=
  coerce_key (key_type m) (field r (attr_name (primaryKeyAttribute m))).

(** [Model.create(values)].  A statement with a value that the database
    cannot read is refused as a whole.  The key comes from [values] or,
    for an auto-increment model, from the sequence, which stays advanced
    when a constraint refuses the row afterwards. *)
Definition create (m : model) (values : jsval) (db : database)
  : result row * database :=
  match build (rawAttributes m) values with
  | Throw e => (Throw e, db)
  | Ok r0 =>
  match query db with
  | Throw e => (Throw e, db)
  | Ok _ =>
  match List.find (λ c, negb (readable r0 c)) (references m) with
  | Some c =>
      (Throw (DatabaseError ("invalid input syntax for column " +:+ foreignKey c)), db)
  | None =>
  let a := primaryKeyAttribute m in
  let t := table_of m db in
  let chosen : result (pk * database) :=
    match field r0 (attr_name a) with
    | Null =>
        if autoIncrement a
        then
          if bool_decide (int4 (next_id t))
          then Ok (PkInt (next_id t), with_table m (Table (rows t) (next_id t + 1)) db)
          else Throw (DatabaseError "nextval: reached maximum value of sequence")
        else Throw (DatabaseError
                      ("null value in column " +:+ attr_name a
                       +:+ " violates not-null constraint"))
    | v =>
        match coerce_key (attr_type a) v with
        | Some k => Ok (k, db)
        | None =>
            Throw (DatabaseError ("invalid input syntax for column " +:+ attr_name a))
        end
    end in
  match chosen with
  | Throw e => (Throw e, db)
  | Ok (k, db1) =>
  match rows (table_of m db1) !! k with
  | Some _ => (Throw UniqueConstraintError, db1)
  | None =>
  match link_all db1 (set_field r0 (attr_name a) (pk_value k)) (references m) with
  | Throw e => (Throw e, db1)
  | Ok r =>
      let t1 := table_of m db1 in
      (Ok r, with_table m (Table (<[k := r]> (rows t1)) (next_id t1)) db1)
  end end end end end end.

(** [Model.findAll()]. *)
Definition findAll (m : model) (db : database) : result (list row) :=
  _ ← query db;
  Ok ((map_to_list (rows (table_of m db))).*2).

(** [Model.findByPk(param)]: [null] when no row has that key. *)
Definition findByPk (m : model) (param : jsval) (db : database)
  : result (option row) :=
  match param with
  | Undefined | Null => Ok None
  | _ =>
      _ ← query db;
      match coerce_key (key_type m) param with
      | None =>
          Throw (DatabaseError
                   ("invalid input syntax for column "
                    +:+ attr_name (primaryKeyAttribute m)))
      | Some k => Ok (rows (table_of m db) !! k)
      end
  end.

(** [instance.update(values)]: the statement writes the row of [merge],
    and the instance, which is what the handler then sends, is the one of
    [assign]. *)
Definition update (m : model) (inst : row) (values : jsval) (db : database)
  : result row * database :=
  match merge (rawAttributes m) inst values with
  | Throw e => (Throw e, db)
  | Ok r1 =>
  match query db with
  | Throw e => (Throw e, db)
  | Ok _ =>
  match link_all db r1 (references m) with
  | Throw e => (Throw e, db)
  | Ok r =>
      let t := table_of m db in
      let shown := assign (rawAttributes m) inst values in
      match key_of m inst with
      | Some k =>
          if bool_decide (is_Some (rows t !! k))
          then (Ok shown, with_table m (Table (<[k := r]> (rows t)) (next_id t)) db)
          else (Ok shown, db)
      | None => (Ok shown, db)
      end
  end end end.

(** ON DELETE SET NULL, the default of [hasMany]. *)
Definition set_null (fk : string) (v : jsval) (r : row) : row :=
  if jsval_eqb (field r fk) v then set_field r fk Null else r.

Definition orphan (k : pk) (db : database) (a : association) : database :=
  let t := table_of (child a) db in
  with_table (child a)
    (Table (set_null (foreignKey a) (pk_value k) <$> rows t) (next_id t)) db.

(** [instance.destroy()]. *)
Definition destroy (m : model) (inst : row) (db : database)
  : result unit * database :=
  match query db with
  | Throw e => (Throw e, db)
  | Ok _ =>
      match key_of m inst with
      | Some k =>
          let t := table_of m db in
          let db1 := with_table m (Table (delete k (rows t)) (next_id t)) db in
          (Ok tt, foldl (orphan k) db1 (dependents m))
      | None => (Ok tt, db)
      end
  end.

(** [Model.findOne({ where })].  A [where] value that is [undefined] is
    refused before any statement is sent; a [where] key is sent to the
    database as a column name, and the database refuses a column that the
    table does not have. *)
Definition matches (where_ : list (string * jsval)) (r : row) : bool :=
  forallb (λ c, jsval_eqb (field r c.1) c.2) where_.

Definition findOne (m : model) (where_ : list (string * jsval)) (db : database)
  : result (option row) :=
  match List.find (λ c, is_undefined c.2) where_ with
  | Some (k, _) =>
      Throw (Error ("WHERE parameter " +:+ k +:+ " has invalid undefined value"))
  | None =>
      _ ← query db;
      match List.find (λ c, negb (has_column m c.1)) where_ with
      | Some (k, _) =>
          Throw (DatabaseError ("column " +:+ name m +:+ "." +:+ k +:+ " does not exist"))
      | None =>
          Ok (snd <$> head (filter (λ kr, matches where_ kr.2)
                              (map_to_list (rows (table_of m db)))))
      end
  end.

End Storage.

End Sequelize.

(** ** HTTP requests and responses *)

Inductive verb : Type := GET | POST | PUT | DELETE.

Global Instance verb_eq_dec : EqDecision verb.
Proof. solve_decision. Defined.

Record request : Type := Request {
  method : verb;
  path : list string;             (* the segments of the URL path *)
  authorization : option jsval;   (* the bearer token of the authorization header *)
  body : jsval;                   (* req.body, as bodyParser.json() leaves it *)
  params_id : jsval;              (* req.params.id, a string on a by-id route *)
  user : jsval                    (* req.user, set by the auth middleware *)
}.

Record response : Type := Response {
  status : Z;
  content : option jsval
}.

(** [res.status(code).json(v)] and [res.status(code).send()]. *)
Definition json (code : Z) (v : jsval) : response := Response code (Some v).
Definition send (code : Z) : response := Response code None.

(** The object literal [{ error: msg }]. *)
Definition error (msg : string) : jsval := Obj [("error", Str msg)].

(** The process: its environment variables and its clock (seconds). *)
Record process : Type := Process {
  env : gmap string string;
  clock : Z
}.

(** [process.env.K || fallback]: an unset and an empty variable are both falsy. *)
Definition truthy (v : option string) : option string :=
  match v with
  | Some EmptyString => None
  | other => other
  end.

Abbreviation handler := (request -> database -> response * database).

(** ** Sample data for the concrete runs *)

Module Sample.

(** Stand-ins for the libraries: a keyed hash that is collision-free by
    construction, and a hash that prefixes its input. *)
Definition hmac (key : string) (v : jsval) : jsval := Arr [Str key; v].
Definition bcrypt_hash (s : string) (rounds : Z) : string := "$2b$10$" +:+ s.
Definition bcrypt_compare (s h : string) : bool := String.eqb ("$2b$10$" +:+ s) h.

(** Stand-ins for the conversions.  A key of an [INTEGER] column is read
    as the database reads an integer: blanks around an optional sign and
    decimal digits, within the range of the type; any string is a key of
    a [STRING] column.  Sequelize takes an integer as a number or as a
    string of an optional sign and digits, a string for a [STRING] column
    as a string of at most 255 characters or as a number, no array and no
    object for a string, and a [BLOB] as a string, which it turns into a
    buffer.  The stand-ins take no date: the runs give none. *)
Definition blank (c : ascii) : bool :=
  existsb (Ascii.eqb c) [" "; "009"; "010"; "011"; "012"; "013"]%char.

Fixpoint skip_blanks (s : string) : string :=
  match s with
  | String c rest => if blank c then skip_blanks rest else s
  | EmptyString => s
  end.

Definition trim (s : string) : string :=
  String.rev (skip_blanks (String.rev (skip_blanks s))).

Definition signed (s : string) : option Z :=
  match parse_decimal s with
  | Some n => Some n
  | None =>
      match s with
      | String "+" digits => Z.of_uint <$> NilZero.uint_of_string digits
      | _ => None
      end
  end.

Definition int4in (s : string) : option Z :=
  n ← match signed s with
      | Some n => Some n
      | None => signed (trim s)
      end;
  if bool_decide (int4 n) then Some n else None.

Definition key (t : data_type) (s : string) : option pk :=
  match t with
  | INTEGER => PkInt <$> int4in s
  | _ => Some (PkStr s)
  end.

(** [Buffer.from(s)], as [JSON.stringify] shows it. *)
Definition buffer (s : string) : jsval :=
  Obj [("type", Str "Buffer");
       ("data", Arr ((λ c, Num (Z.of_N (N_of_ascii c))) <$> list_ascii_of_string s))].

Definition shown (a : attribute) (v : jsval) : jsval :=
  match attr_type a, v with
  | BLOB, Str s => buffer s
  | _, _ => v
  end.

Definition held (a : attribute) (v : jsval) : result jsval :=
  match attr_type a, v with
  | INTEGER, Num n =>
      if bool_decide (int4 n) then Ok (Num n)
      else Throw (Sequelize.DatabaseError "integer out of range")
  | INTEGER, Str s =>
      match signed s with
      | Some n =>
          if bool_decide (int4 n) then Ok (Num n)
          else Throw (Sequelize.DatabaseError "integer out of range")
      | None => Throw (Sequelize.ValidationError (s +:+ " is not a valid integer"))
      end
  | STRING, Str s =>
      if bool_decide (String.length s ≤ 255)%nat then Ok (Str s)
      else Throw (Sequelize.DatabaseError
                    "value too long for type character varying(255)")
  | STRING, Num n => Ok (Str (decimal n))
  | TEXT, Str s => Ok (Str s)
  | STRING, Arr _ | STRING, Obj _ | TEXT, Arr _ | TEXT, Obj _ =>
      Throw (Sequelize.ValidationError
               ("string violation: " +:+ attr_name a
                +:+ " cannot be an array or an object"))
  | BLOB, Str s => Ok (buffer s)
  | JSONB, _ => Ok v
  | _, _ =>
      Throw (Sequelize.ValidationError ("not a valid value for " +:+ attr_name a))
  end.

#[export] Program Instance conversions : Conversions :=
  {| key_in := key; instance_value := shown; column_value := held |}.
Next Obligation.
  intros t s k. destruct t; simpl; try (intros [= <-]; done).
  unfold int4in. intros (n & Hn & ->)%fmap_Some. simpl.
  apply bind_Some in Hn as (n' & _ & Hr). case_bool_decide; [|done].
  injection Hr as ->. unfold signed, parse_decimal, decimal.
  rewrite NilZero.isi.
  - simpl. rewrite DecimalZ.of_to. simpl. by rewrite bool_decide_eq_true_2.
  - intros E. assert (n = 0) as -> by (by rewrite <- (DecimalZ.of_to n), E).
    vm_compute in E. discriminate E.
  - intros E. assert (n = 0) as -> by (by rewrite <- (DecimalZ.of_to n), E).
    vm_compute in E. discriminate E.
Qed.
Next Obligation.
  intros s k. simpl. unfold int4in. intros (n & Hn & ->)%fmap_Some.
  apply bind_Some in Hn as (n' & _ & Hr). case_bool_decide; [|done].
  injection Hr as ->. eauto.
Qed.
Next Obligation.
  intros n Hn. simpl. unfold int4in, signed, parse_decimal, decimal.
  rewrite NilZero.isi.
  - simpl. rewrite DecimalZ.of_to. simpl. by rewrite bool_decide_eq_true_2.
  - intros E. assert (n = 0) as -> by (by rewrite <- (DecimalZ.of_to n), E).
    vm_compute in E. discriminate E.
  - intros E. assert (n = 0) as -> by (by rewrite <- (DecimalZ.of_to n), E).
    vm_compute in E. discriminate E.
Qed.

Definition proc : process := Process {[ "JWT_SECRET" := "s3cret" ]} 1000.

Definition request_of (v : verb) (segments : list string) (b : jsval) : request :=
  Request v segments None b (default Undefined (Str <$> segments !! 1%nat)) Undefined.

(** The scenario of the specification. *)
Definition register_A : request :=
  request_of POST ["register"]
    (Obj [("name", Str "A"); ("email", Str "a@x.com"); ("password", Str "pw")]).

Definition login_A : request :=
  request_of POST ["login"] (Obj [("email", Str "a@x.com"); ("password", Str "pw")]).


Definition list_users : request := request_of GET ["users"] Null.

(** A user row, as [POST /users] stores it. *)
Definition alice : row :=
  [("UserID", Num 1); ("Name", Str "A"); ("Email", Str "a@x.com");
   ("PhoneNumber", Null); ("LoginPIN", Null); ("DateOfBirth", Null);
   ("AadhaarNumber", Null); ("PANNumber", Null); ("UserImage", Null)].

Definition with_alice : database :=
  Database (Table {[ PkInt 1 := alice ]} 2) empty_table empty_table empty_table
           empty_table None.

(** A document transaction, created, read and deleted. *)
Definition post_transaction : request :=
  request_of POST ["documenttransactions"] (Obj [("TransactionData", Num 4)]).

Definition transaction : row :=
  [("TransactionID", Num 1); ("TransactionData", Num 4); ("DocumentID", Null)].

Definition get_transaction : request := request_of GET ["documenttransactions"; "1"] Null.

Definition delete_transaction : request :=
  request_of DELETE ["documenttransactions"; "1"] Null.

Definition with_transaction : database :=
  Database empty_table empty_table empty_table empty_table
           (Table {[ PkInt 1 := transaction ]} 2) None.

Definition without_transaction : database :=
  Database empty_table empty_table empty_table empty_table (Table ∅ 2) None.

Definition offline : database :=
  Database empty_table empty_table empty_table empty_table empty_table
           (Some "connect ECONNREFUSED").

(** The token that [token.js] logs at time 50 under the secret "k". *)
Definition example_payload : jsval :=
  Obj [("id", Num 123); ("username", Str "example_user");
       ("iat", Num 50); ("exp", Num 3650)].

Definition example_token : jsval :=
  Obj [("header", Obj [("alg", Str "HS256"); ("typ", Str "JWT")]);
       ("payload", example_payload);
       ("signature",
        hmac "k" (Arr [Obj [("alg", Str "HS256"); ("typ", Str "JWT")]; example_payload]))].

(** A renamed user, a document of hers, and what is left of it once she
    is deleted. *)
Definition post_alice : request :=
  request_of POST ["users"] (Obj [("Name", Str "A"); ("Email", Str "a@x.com")]).

Definition put_alice_B : request :=
  request_of PUT ["users"; "1"]
    (Obj [("Name", Str "B"); ("UserID", Num 9); ("nickname", Str "b")]).


Definition get_alice : request := request_of GET ["users"; "1"] Null.

Definition delete_alice : request := request_of DELETE ["users"; "1"] Null.

Definition alice_B : row :=
  [("UserID", Num 1); ("Name", Str "B"); ("Email", Str "a@x.com");
   ("PhoneNumber", Null); ("LoginPIN", Null); ("DateOfBirth", Null);
   ("AadhaarNumber", Null); ("PANNumber", Null); ("UserImage", Null)].

Definition with_alice_B : database :=
  Database (Table {[ PkInt 1 := alice_B ]} 2) empty_table empty_table empty_table
           empty_table None.

Definition post_document : request :=
  request_of POST ["documents"] (Obj [("Content", Str "deed"); ("OwnerID", Num 1)]).

Definition document : row :=
  [("DocumentID", Num 1);
   ("Content", Obj [("type", Str "Buffer");
                    ("data", Arr [Num 100; Num 101; Num 101; Num 100])]);
   ("Created", Null); ("Updated", Null); ("OwnerID", Num 1)].

Definition with_document : database :=
  Database (Table {[ PkInt 1 := alice ]} 2) empty_table empty_table
           (Table {[ PkInt 1 := document ]} 2) empty_table None.

Definition orphaned : row :=
  [("DocumentID", Num 1);
   ("Content", Obj [("type", Str "Buffer");
                    ("data", Arr [Num 100; Num 101; Num 101; Num 100])]);
   ("Created", Null); ("Updated", Null); ("OwnerID", Null)].

Definition without_alice : database :=
  Database (Table ∅ 2) empty_table empty_table
           (Table {[ PkInt 1 := orphaned ]} 2) empty_table None.

Definition list_transactions : request := request_of GET ["documenttransactions"] Null.

(** A name given as a number: the instance shows the number, the column
    holds its notation. *)
Definition put_alice_6 : request :=
  request_of PUT ["users"; "1"] (Obj [("Name", Num 6)]).

Definition alice_6_shown : row :=
  [("UserID", Num 1); ("Name", Num 6); ("Email", Str "a@x.com");
   ("PhoneNumber", Null); ("LoginPIN", Null); ("DateOfBirth", Null);
   ("AadhaarNumber", Null); ("PANNumber", Null); ("UserImage", Null)].

Definition alice_6 : row :=
  [("UserID", Num 1); ("Name", Str "6"); ("Email", Str "a@x.com");
   ("PhoneNumber", Null); ("LoginPIN", Null); ("DateOfBirth", Null);
   ("AadhaarNumber", Null); ("PANNumber", Null); ("UserImage", Null)].

Definition with_alice_6 : database :=
  Database (Table {[ PkInt 1 := alice_6 ]} 2) empty_table empty_table empty_table
           empty_table None.

(** Identifiers that name no user: one that is no integer, and one that
    is beyond the range of the column. *)
Definition get_abc : request := request_of GET ["users"; "abc"] Null.

Definition get_beyond : request := request_of GET ["users"; "2147483648"] Null.

(** The identifier of the path [/documenttransactions/%201]. *)
Definition get_padded : request :=
  request_of GET ["documenttransactions"; " 1"] Null.

(** A document with an owner that is no integer, which the database
    refuses before it asks the sequence. *)
Definition post_unreadable_owner : request :=
  request_of POST ["documents"] (Obj [("OwnerID", Str "abc")]).

Definition put_broken_reference : request :=
  request_of PUT ["documenttransactions"; "1"] (Obj [("DocumentID", Num 9)]).

End Sample.

Section App.

Context {conv : Conversions}.

(** The libraries the handlers call.  [hmac] stands for the signature
    jsonwebtoken computes over the encoded header and payload, and the
    two bcrypt functions for salted hashing and its comparison. *)
Variable hmac : string -> jsval -> jsval.
Variable bcrypt_hash : string -> Z -> string.
Variable bcrypt_compare : string -> string -> bool.

(** *** jsonwebtoken

    A token is kept as the structure [{ header, payload, signature }]
    instead of its three dot-separated encoded parts. *)

Definition JsonWebTokenError (msg : string) : exn := Exn "JsonWebTokenError" msg.
Definition TokenExpiredError : exn := Exn "TokenExpiredError" "jwt expired".

(** The time span notation of [expiresIn], in seconds. *)
Definition timespan (s : string) : option Z :=
  let n := String.length s in
  k ← parse_decimal (substring 0 (n - 1) s);
  match substring (n - 1) 1 s with
  | "s" => Some k
  | "m" => Some (60 * k)
  | "h" => Some (3600 * k)
  | "d" => Some (86400 * k)
  | _ => None
  end%string.

Definition jose_header : jsval := Obj [("alg", Str "HS256"); ("typ", Str "JWT")].

(** What [JSON.stringify] keeps of the claims: every defined property. *)
Definition defined (fs : row) : row := filter (λ c, is_undefined c.2 = false) fs.

Definition without (k : string) (fs : row) : row := filter (λ c, c.1 ≠ k) fs.

(** The part of a token that is signed. *)
Definition signing_input (header payload : jsval) : jsval := Arr [header; payload].

(** [jwt.sign(claims, secret, { expiresIn })] at time [now].  The claims
    have to be an object without [exp]; [iat] is taken from the claims
    when they give it, and from the clock otherwise; both are then set on
    the payload. *)
Definition sign (claims : jsval) (secret : option string) (expiresIn : string)
    (now : Z) : result jsval :=
  match truthy secret with
  | None => Throw (Error "secretOrPrivateKey must have a value")
  | Some key =>
      match claims with
      | Obj fs =>
          if negb (is_undefined (field fs "exp"))
          then Throw (Error "Bad options.expiresIn option the payload already has an exp property.")
          else
            match timespan expiresIn with
            | None => Throw (Error "expiresIn should be a number of seconds or string representing a timespan")
            | Some span =>
                iat ← match field fs "iat" with
                      | Num t => Ok t
                      | Undefined => Ok now
                      | _ => Throw (Error "iat should be a number of seconds")
                      end;
                let payload :=
                  Obj (defined (without "exp" (without "iat" fs))
                       ++ [("iat", Num iat); ("exp", Num (iat + span))]) in
                Ok (Obj [("header", jose_header);
                         ("payload", payload);
                         ("signature", hmac key (signing_input jose_header payload))])
            end
      | _ => Throw (Error "invalid expiresIn option for this payload")
      end
  end.

(** [jwt.verify(token, secret)] at time [now]. *)
Definition verify (token : jsval) (secret : option string) (now : Z) : result jsval :=
  match truthy secret with
  | None => Throw (JsonWebTokenError "secret or public key must be provided")
  | Some key =>
      let payload := prop token "payload" in
      if negb (jsval_eqb (prop token "signature")
                 (hmac key (signing_input (prop token "header") payload)))
      then Throw (JsonWebTokenError "invalid signature")
      else
        match prop payload "exp" with
        | Num e => if e <=? now then Throw TokenExpiredError else Ok payload
        | _ => Ok payload
        end
  end.

(** *** bcrypt *)

Definition hash (data : jsval) (rounds : Z) : result jsval :=
  match data with
  | Str s => Ok (Str (bcrypt_hash s rounds))
  | _ => Throw (Error "data and salt arguments required")
  end.

Definition compare (data encrypted : jsval) : result bool :=
  match data, encrypted with
  | Str d, Str h => Ok (bcrypt_compare d h)
  | _, _ => Throw (Error "data and hash arguments required")
  end.

(** *** middleware/auth.js *)

Inductive outcome : Type :=
| Next (req : request)         (* next() was called *)
| Respond (res : response).    (* the middleware answered itself *)

(** Modelled from the spec: [./middleware/auth] is required by [index.js]
    but is not among the sources.  The specification gives it as: a
    missing authorization header is rejected with a 401 response and the
    request goes no further; a present header is given to the verifier,
    whose success attaches the decoded claims to the request and lets it
    proceed, and whose failure is rejected (status 403 here, where the
    specification leaves 401 or 403 open). *)
Definition authenticateJWT (p : process) (req : request) : outcome :=
  match authorization req with
  | None => Respond (send 401)
  | Some token =>
      match verify token (env p !! "JWT_SECRET") (clock p) with
      | Ok claims =>
          Next (Request (method req) (path req) (authorization req) (body req)
                        (params_id req) claims)
      | Throw _ => Respond (send 403)
      end
  end.

(** *** index.js: the handlers

    The five models have the same five handlers, written out once per
    model in the source; here each is written once, with the model as a
    parameter.  The message of the 404 answer is the model's name followed
    by " not found". *)

Definition not_found (m : model) : response :=
  json 404 (error (name m +:+ " not found")).

(** [app.post("/<models>")] *)
Definition create_one (m : model) : handler := λ req db,
  match Sequelize.create m (body req) db with
  | (Ok r, db') => (json 201 (Obj r), db')
  | (Throw err, db') => (json 400 (error (message err)), db')
  end.

(** [app.get("/<models>")] *)
Definition list_all (m : model) : handler := λ req db,
  match Sequelize.findAll m db with
  | Ok rs => (json 200 (Arr (Obj <$> rs)), db)
  | Throw err => (json 500 (error (message err)), db)
  end.

(** [app.get("/<models>/:id")] *)
Definition get_one (m : model) : handler := λ req db,
  match Sequelize.findByPk m (params_id req) db with
  | Ok (Some r) => (json 200 (Obj r), db)
  | Ok None => (not_found m, db)
  | Throw err => (json 500 (error (message err)), db)
  end.

(** [app.put("/<models>/:id")] *)
Definition update_one (m : model) : handler := λ req db,
  match Sequelize.findByPk m (params_id req) db with
  | Ok (Some inst) =>
      match Sequelize.update m inst (body req) db with
      | (Ok r, db') => (json 200 (Obj r), db')
      | (Throw err, db') => (json 400 (error (message err)), db')
      end
  | Ok None => (not_found m, db)
  | Throw err => (json 400 (error (message err)), db)
  end.

(** [app.delete("/<models>/:id")] *)
Definition delete_one (m : model) : handler := λ req db,
  match Sequelize.findByPk m (params_id req) db with
  | Ok (Some inst) =>
      match Sequelize.destroy m inst db with
      | (Ok _, db') => (send 204, db')
      | (Throw err, db') => (json 500 (error (message err)), db')
      end
  | Ok None => (not_found m, db)
  | Throw err => (json 500 (error (message err)), db)
  end.

(** The names that the [require]s, [const]s and destructurings at the top
    level of [index.js] declare. *)
Definition index_declarations : list string :=
  ["express"; "bodyParser"; "User"; "Resource"; "DocumentTransaction"; "DID";
   "Document"; "setupSwagger"; "authenticateJWT"; "app"; "PORT"].

(** [const { .. } = req.body] throws on [undefined] and [null]. *)
Definition destructure (v : jsval) : result unit :=
  match v with
  | Undefined | Null => Throw (TypeError "Cannot destructure the body as it is undefined.")
  | _ => Ok tt
  end.

(** [app.post("/register")], in a module whose declarations are [scope]. *)
Definition register_in (scope : list string) : handler := λ req db,
  match
    match destructure (body req) with
    | Throw e => (Throw e, db)
    | Ok _ =>
        let name := prop (body req) "name" in
        let email := prop (body req) "email" in
        let password := prop (body req) "password" in
        match (_ ← resolve scope "bcrypt"; hash password 10) with
        | Throw e => (Throw e, db)
        | Ok hashedPassword =>
            Sequelize.create User
              (Obj [("name", name); ("email", email); ("password", hashedPassword)]) db
        end
    end
  with
  | (Ok user, db') => (json 201 (Obj user), db')
  | (Throw err, db') => (json 400 (error (message err)), db')
  end.

(** The token that the login handler signs for a user row. *)
Definition login_token (scope : list string) (p : process) (user : row)
  : result jsval :=
  _ ← resolve scope "jwt";
  sign (Obj [("id", field user "id"); ("email", field user "email")])
       (env p !! "JWT_SECRET") "1h" (clock p).

(** What the login handler does once the lookup has answered: with no
    user the condition [!user || ..] holds at once, with a user the
    password is compared first. *)
Definition login_after_lookup (scope : list string) (p : process)
    (password : jsval) (found : option row) : result response :=
  match found with
  | None => Ok (json 400 (error "Invalid email or password."))
  | Some user =>
      _ ← resolve scope "bcrypt";
      same ← compare password (field user "password");
      if negb same then Ok (json 400 (error "Invalid email or password."))
      else
        token ← login_token scope p user;
        Ok (json 200 (Obj [("token", token)]))
  end.

(** [app.post("/login")], in a module whose declarations are [scope]. *)
Definition login_in (scope : list string) (p : process) : handler := λ req db,
  match
    _ ← destructure (body req);
    let email := prop (body req) "email" in
    let password := prop (body req) "password" in
    found ← Sequelize.findOne User [("email", email)] db;
    login_after_lookup scope p password found
  with
  | Ok res => (res, db)
  | Throw err => (json 400 (error (message err)), db)
  end.

Definition register : handler := register_in index_declarations.
Definition login (p : process) : handler := login_in index_declarations p.

(** *** index.js: the route table *)

Record route : Type := Route {
  route_method : verb;
  route_path : string;        (* the first segment of the pattern *)
  route_by_id : bool;         (* whether the pattern ends in /:id *)
  route_model : option model; (* the model the handler works on *)
  guarded : bool;             (* whether authenticateJWT is in the chain *)
  route_handler : handler
}.

Definition crud (p : string) (m : model) (g : bool) : list route :=
  [ Route POST p false (Some m) g (create_one m);
    Route GET p false (Some m) g (list_all m);
    Route GET p true (Some m) g (get_one m);
    Route PUT p true (Some m) g (update_one m);
    Route DELETE p true (Some m) g (delete_one m) ].

Definition routes (p : process) : list route :=
  crud "resources" Resource true
  ++ crud "users" User true
  ++ crud "dids" DID true
  ++ crud "documents" Document true
  ++ crud "documenttransactions" DocumentTransaction false
  ++ [ Route POST "register" false None false register;
       Route POST "login" false None false (login p) ].

(** Whether a route's pattern matches, and the request as the handler
    sees it, with [req.params.id] filled in. *)
Definition route_match (r : route) (req : request) : option request :=
  if bool_decide (route_method r = method req) then
    match path req, route_by_id r with
    | [seg], false =>
        if String.eqb seg (route_path r) then Some req else None
    | [seg; id], true =>
        if String.eqb seg (route_path r) && negb (String.eqb id "")
        then Some (Request (method req) (path req) (authorization req) (body req)
                           (Str id) (user req))
        else None
    | _, _ => None
    end
  else None.

(** One route: the middleware chain, then the handler. *)
Definition run (p : process) (g : bool) (h : handler) : handler := λ req db,
  if g then
    match authenticateJWT p req with
    | Respond res => (res, db)
    | Next req' => h req' db
    end
  else h req db.

(** The first route that matches, if any; [None] when the request falls
    through to the framework's own 404. *)
Definition find_route (p : process) (req : request) : option (route * request) :=
  head (omap (λ r, (λ req', (r, req')) <$> route_match r req) (routes p)).

Definition app (p : process) (req : request) (db : database)
  : option (response * database) :=
  (λ rr : route * request, run p (guarded rr.1) (route_handler rr.1) rr.2 db)
    <$> find_route p req.

(** ** token.js *)

Definition token_declarations : list string :=
  ["jwt"; "crypto"; "accessTokenSecret"; "generateAccessToken"; "user"; "accessToken"].

(** [process.env.ACCESS_TOKEN_SECRET || generateAccessTokenSecret()].
    The file imports [crypto] but declares no function of that name, so
    the call has nothing to run once the name is looked up. *)
Definition accessTokenSecret (p : process) : result string :=
  match truthy (env p !! "ACCESS_TOKEN_SECRET") with
  | Some s => Ok s
  | None =>
      _ ← resolve token_declarations "generateAccessTokenSecret";
      Throw (TypeError "generateAccessTokenSecret is not a function")
  end.

Definition generateAccessToken (secret : string) (now : Z) (payload : jsval)
  : result jsval :=
  sign payload (Some secret) "1h" now.

(** Running the script: the value of [accessToken] that it logs. *)
Definition token_js (p : process) : result jsval :=
  secret ← accessTokenSecret p;
  generateAccessToken secret (clock p)
    (Obj [("id", Num 123); ("username", Str "example_user")]).

(** ** The terms of the specification *)

(** Every stored row sits under its own primary key and has exactly the
    columns of its table. *)
Definition consistent (db : database) : Prop :=
  ∀ m k r, rows (table_of m db) !! k = Some r ->
    Sequelize.key_of m r = Some k ∧ r.*1 = attr_name <$> rawAttributes m.

(** The two ways in which an identifier names no row: no row is stored
    under it, or the row was stored and a delete request has removed it. *)
Definition gone (m : model) (req : request) (k : pk) (db : database) : Prop :=
  rows (table_of m db) !! k = None
  ∨ ∃ db0, consistent db0 ∧ delete_one m req db0 = (send 204, db).

(** The by-id handlers of the source, as a list. *)
Definition by_id_handlers (m : model) : list handler :=
  [get_one m; update_one m; delete_one m].

(** The operations of the specification's handler table, with register
    and login. *)
Inductive operation : Type :=
| OpCreate | OpList | OpGet | OpUpdate | OpDelete | OpRegister | OpLogin.

Definition operation_of (r : route) : operation :=
  match route_model r, route_method r, route_by_id r with
  | Some _, POST, _ => OpCreate
  | Some _, GET, false => OpList
  | Some _, GET, true => OpGet
  | Some _, PUT, _ => OpUpdate
  | Some _, DELETE, _ => OpDelete
  | None, _, _ => if String.eqb (route_path r) "register" then OpRegister else OpLogin
  end.

(** The statuses with which each operation fails. *)
Definition failure_statuses (op : operation) : list Z :=
  match op with
  | OpCreate => [400]
  | OpList => [500]
  | OpGet => [404; 500]
  | OpUpdate => [404; 400]
  | OpDelete => [404; 500]
  | OpRegister => [400]
  | OpLogin => [400]
  end.

Definition failed (res : response) : Prop := 400 ≤ status res.

(** What it means for the storage call of a model's operation to throw. *)
Definition thrown (op : operation) (m : model) (req : request) (db : database)
    (e : exn) : Prop :=
  match op with
  | OpCreate => (Sequelize.create m (body req) db).1 = Throw e
  | OpList => Sequelize.findAll m db = Throw e
  | OpGet => Sequelize.findByPk m (params_id req) db = Throw e
  | OpUpdate =>
      Sequelize.findByPk m (params_id req) db = Throw e
      ∨ ∃ inst, Sequelize.findByPk m (params_id req) db = Ok (Some inst)
              ∧ (Sequelize.update m inst (body req) db).1 = Throw e
  | OpDelete =>
      Sequelize.findByPk m (params_id req) db = Throw e
      ∨ ∃ inst, Sequelize.findByPk m (params_id req) db = Ok (Some inst)
              ∧ (Sequelize.destroy m inst db).1 = Throw e
  | OpRegister | OpLogin => False
  end.

(** The status of the [catch] branch of each operation. *)
Definition catch_status (op : operation) : Z :=
  match op with
  | OpList | OpGet | OpDelete => 500
  | OpCreate | OpUpdate | OpRegister | OpLogin => 400
  end.


(** The models whose routes carry the middleware in [index.js]. *)
Definition guarded_models : list model := [User; Resource; DID; Document].

(** The databases that the server can be in: the freshly synced one, the
    one a request leaves behind, and any of these with the connection
    lost or back. *)
Inductive reachable (p : process) : database -> Prop :=
| reachable_synced : reachable p synced
| reachable_request req db out :
    reachable p db -> app p req db = Some out -> reachable p out.2
| reachable_connection db state :
    reachable p db ->
    reachable p (Database (Users db) (DIDs db) (Resources db) (Documents db)
                          (DocumentTransactions db) state).

(** What a route's pattern is made of: two routes with the same method,
    first segment and shape match the same requests. *)
Definition route_key (r : route) : verb * string * bool :=
  (route_method r, route_path r, route_by_id r).

(** The statuses that the handlers of [index.js] write. *)
Definition statuses : list Z := [200; 201; 204; 400; 404; 500].

(** What a body gives for a column, with nothing read as NULL. *)
Definition stored (v : jsval) : jsval :=
  match v with
  | Undefined => Null
  | _ => v
  end.



(** What a foreign key column may hold: NULL, or the key of a stored row
    of the parent table. *)
Definition refers (db : database) (a : association) (v : jsval) : Prop :=
  v = Null
  ∨ ∃ k, v = pk_value k
       ∧ coerce_key (key_type (parent a)) v = Some k
       ∧ is_Some (rows (table_of (parent a) db) !! k).

(** No stored row refers to a row that is not there. *)
Definition referential (db : database) : Prop :=
  ∀ a k r, a ∈ associations ->
    rows (table_of (child a) db) !! k = Some r ->
    refers db a (field r (foreignKey a)).

(** * Properties *)

(** ** Values and rows *)

Lemma jsval_eqb_eq (a b : jsval) : jsval_eqb a b = true ↔ a = b.
Proof.
  revert b. induction a as [| |x|x|x|xs IH|fs IH] using jsval_nested_ind;
    intros [| |y|y|y|ys|gs]; simpl; try (split; done).
  - destruct x, y; simpl; split; done.
  - rewrite Z.eqb_eq. split; congruence.
  - rewrite String.eqb_eq. split; congruence.
  - revert ys. induction IH as [|x xs Hx _ IHxs]; intros [|y ys]; try (split; done).
    rewrite andb_true_iff, Hx, IHxs. split; [intros [-> [= ->]]; done | intros [= -> ->]; done].
  - revert gs. induction IH as [|[k x] fs Hx _ IHfs]; intros [|[l y] gs]; try (split; done).
    simpl in Hx. rewrite !andb_true_iff, String.eqb_eq, Hx, IHfs.
    split; [intros [[-> ->] [= ->]]; done | intros [= -> -> ->]; done].
Qed.

Lemma jsval_eqb_refl (a : jsval) : jsval_eqb a a = true.
Proof. by apply jsval_eqb_eq. Qed.

Lemma jsval_eqb_neq (a b : jsval) : a ≠ b -> jsval_eqb a b = false.
Proof.
  intros H. destruct (jsval_eqb a b) eqn:E; [|done].
  by apply jsval_eqb_eq in E.
Qed.

Lemma field_set_field_ne (r : row) (k l : string) (v : jsval) :
  k ≠ l -> field (set_field r k v) l = field r l.
Proof.
  intros Hkl. induction r as [|[k' x] r IH]; [done|]. simpl.
  destruct (String.eqb_spec k' k) as [->|Hk]; simpl.
  - destruct (String.eqb_spec k l); [done|done].
  - by rewrite IH.
Qed.

Lemma field_set_field_eq (r : row) (k : string) (v : jsval) :
  k ∈ r.*1 -> field (set_field r k v) k = v.
Proof.
  induction r as [|[k' x] r IH]; simpl; [by intros ?%elem_of_nil|].
  intros Hin. destruct (String.eqb_spec k' k) as [->|Hk]; simpl.
  - by rewrite String.eqb_refl.
  - destruct (String.eqb_spec k' k); [done|].
    apply IH. apply elem_of_cons in Hin as [?|?]; [congruence|done].
Qed.

Lemma keys_set_field (r : row) (k : string) (v : jsval) :
  (set_field r k v).*1 = r.*1.
Proof.
  induction r as [|[k' x] r IH]; [done|]. csimpl.
  destruct (String.eqb k' k); csimpl; [done|by f_equal].
Qed.

Lemma field_absent (r : row) (k : string) : k ∉ r.*1 -> field r k = Undefined.
Proof.
  induction r as [|[k' x] r IH]; [done|]. simpl. intros Hk.
  apply not_elem_of_cons in Hk as [Hne Hk].
  destruct (String.eqb_spec k' k); [congruence|by apply IH].
Qed.

(** ** Keys *)

Lemma coerce_key_pk_value (t : data_type) (v : jsval) (k : pk) :
  coerce_key t v = Some k -> coerce_key t (pk_value k) = Some k.
Proof.
  intros Hk. assert (key_in t (identifier v) = Some k) as Hid by (by destruct v).
  apply key_in_notation in Hid. by destruct k.
Qed.

(** ** Tables *)

Lemma table_of_with_table (m : model) (t : table) (db : database) :
  table_of m (with_table m t db) = t.
Proof. by destruct m. Qed.

Lemma table_of_with_table_ne (m m' : model) (t : table) (db : database) :
  m ≠ m' -> table_of m' (with_table m t db) = table_of m' db.
Proof. by destruct m, m'. Qed.

Lemma unreachable_with_table (m : model) (t : table) (db : database) :
  unreachable (with_table m t db) = unreachable db.
Proof. by destruct m. Qed.


Lemma query_ok (db : database) : Sequelize.query db = Ok tt ↔ unreachable db = None.
Proof. unfold Sequelize.query. destruct (unreachable db); split; done. Qed.

(** ** Rows built from request bodies *)

Lemma build_keys (attrs : list attribute) (values : jsval) (r : row) :
  Sequelize.build attrs values = Ok r -> r.*1 = attr_name <$> attrs.
Proof.
  revert r. induction attrs as [|a attrs IH]; intros r; simpl.
  - by intros [= <-].
  - destruct (Sequelize.validate a _); simpl; [|done].
    destruct (Sequelize.build attrs values); simpl; [|done].
    intros [= <-]. csimpl. f_equal. by apply IH.
Qed.

Lemma merge_keys (attrs : list attribute) (old : row) (values : jsval) (r : row) :
  Sequelize.merge attrs old values = Ok r -> r.*1 = attr_name <$> attrs.
Proof.
  revert r. induction attrs as [|a attrs IH]; intros r; simpl.
  - by intros [= <-].
  - match goal with |- context [mbind _ ?x] => destruct x end; simpl; [|done].
    destruct (Sequelize.merge attrs old values); simpl; [|done].
    intros [= <-]. csimpl. f_equal. by apply IH.
Qed.

(** An update never changes the primary key of the row. *)
Lemma merge_primaryKey (attrs : list attribute) (old : row) (values : jsval)
    (r : row) (a : attribute) :
  NoDup (attr_name <$> attrs) ->
  Sequelize.merge attrs old values = Ok r ->
  a ∈ attrs -> primaryKey a = true ->
  field r (attr_name a) = field old (attr_name a).
Proof.
  revert r. induction attrs as [|a0 attrs IH]; intros r Hnd Hm Ha Hpk.
  - by apply elem_of_nil in Ha.
  - simpl in Hm. csimpl in Hnd. apply NoDup_cons in Hnd as [Hfresh Hnd].
    match type of Hm with context [mbind _ ?x] => destruct x as [v|] eqn:Hv end;
      simpl in Hm; [|done].
    destruct (Sequelize.merge attrs old values) as [r'|] eqn:Hr'; simpl in Hm; [|done].
    injection Hm as <-. simpl.
    apply elem_of_cons in Ha as [->|Ha].
    + rewrite String.eqb_refl. rewrite Hpk in Hv.
      destruct (prop values (attr_name a0)); by injection Hv as <-.
    + destruct (String.eqb_spec (attr_name a0) (attr_name a)) as [Heq|_].
      * exfalso. apply Hfresh. rewrite Heq. apply list_elem_of_fmap. eauto.
      * by apply IH.
Qed.

Lemma link_spec (db : database) (r r' : row) (a : association) :
  Sequelize.link db r a = Ok r' ->
  r'.*1 = r.*1 ∧ ∀ k, k ≠ foreignKey a -> field r' k = field r k.
Proof.
  unfold Sequelize.link. intros H.
  assert (r' = r ∨ ∃ v, r' = set_field r (foreignKey a) v) as [->|[v ->]].
  { repeat case_match; simplify_eq; eauto. }
  - done.
  - split; [apply keys_set_field|]. intros k Hk. by apply field_set_field_ne.
Qed.

Lemma link_all_spec (db : database) (l : list association) (r r' : row) :
  Sequelize.link_all db r l = Ok r' ->
  r'.*1 = r.*1 ∧ ∀ k, (∀ a, a ∈ l -> k ≠ foreignKey a) -> field r' k = field r k.
Proof.
  revert r. induction l as [|a l IH]; intros r; simpl.
  - by intros [= <-].
  - destruct (Sequelize.link db r a) as [r1|] eqn:H1; simpl; [|done].
    intros H. apply link_spec in H1 as [Hk1 Hf1]. apply IH in H as [Hk Hf].
    split; [congruence|]. intros k Hne.
    rewrite Hf, Hf1; [done|apply Hne, list_elem_of_here|].
    intros a' Ha'. by apply Hne, list_elem_of_further.
Qed.

(** ** The model definitions *)

Lemma columns_NoDup (m : model) : NoDup (attr_name <$> rawAttributes m).
Proof. destruct m; compute_done. Qed.

Lemma primaryKeyAttribute_column (m : model) :
  primaryKeyAttribute m ∈ rawAttributes m ∧ primaryKey (primaryKeyAttribute m) = true.
Proof. destruct m; split; compute_done. Qed.

Lemma foreignKey_not_primaryKey (m : model) (a : association) :
  a ∈ references m -> attr_name (primaryKeyAttribute m) ≠ foreignKey a.
Proof.
  destruct m; vm_compute;
    intros H; repeat (apply elem_of_cons in H as [->|H]); try done;
    by apply elem_of_nil in H.
Qed.

Lemma autoIncrement_INTEGER (m : model) :
  autoIncrement (primaryKeyAttribute m) = true -> key_type m = INTEGER.
Proof. by destruct m. Qed.

(** The password of the register handler has no column to go to. *)
Lemma User_columns :
  attr_name <$> rawAttributes User =
  ["UserID"; "Name"; "Email"; "PhoneNumber"; "LoginPIN"; "DateOfBirth";
   "AadhaarNumber"; "PANNumber"; "UserImage"].
Proof. reflexivity. Qed.

(** ** Create *)

(** The steps of a successful [create]: the row that was built, the key
    that was chosen, from the body or from the sequence, and the insert. *)
Lemma create_steps (m : model) (values : jsval) (db db' : database) (r : row) :
  Sequelize.create m values db = (Ok r, db') ->
  ∃ r0 k db1,
    Sequelize.build (rawAttributes m) values = Ok r0
    ∧ unreachable db = None
    ∧ (field r0 (attr_name (primaryKeyAttribute m)) ≠ Null
       ∧ coerce_key (key_type m) (field r0 (attr_name (primaryKeyAttribute m))) = Some k
       ∧ db1 = db
       ∨ field r0 (attr_name (primaryKeyAttribute m)) = Null
         ∧ autoIncrement (primaryKeyAttribute m) = true
         ∧ k = PkInt (next_id (table_of m db))
         ∧ db1 = with_table m
                   (Table (rows (table_of m db)) (next_id (table_of m db) + 1)) db)
    ∧ coerce_key (key_type m) (pk_value k) = Some k
    ∧ rows (table_of m db1) !! k = None
    ∧ Sequelize.link_all db1
        (set_field r0 (attr_name (primaryKeyAttribute m)) (pk_value k)) (references m)
      = Ok r
    ∧ db' = with_table m
              (Table (<[k := r]> (rows (table_of m db1))) (next_id (table_of m db1))) db1.
Proof.
  unfold Sequelize.create.
  destruct (Sequelize.build (rawAttributes m) values) as [r0|] eqn:Hb; [|done].
  destruct (Sequelize.query db) as [[]|] eqn:Hq; [|done]. apply query_ok in Hq.
  destruct (List.find _ (references m)); [done|].
  set (a := primaryKeyAttribute m).
  match goal with |- context [match ?c with Ok _ => _ | Throw _ => _ end] =>
    destruct c as [[k db1]|] eqn:Hc end; [|done].
  assert (Hdb1 : (field r0 (attr_name a) ≠ Null
                  ∧ coerce_key (key_type m) (field r0 (attr_name a)) = Some k
                  ∧ db1 = db
                  ∨ field r0 (attr_name a) = Null ∧ autoIncrement a = true
                    ∧ k = PkInt (next_id (table_of m db))
                    ∧ db1 = with_table m
                              (Table (rows (table_of m db)) (next_id (table_of m db) + 1)) db)
                 ∧ coerce_key (key_type m) (pk_value k) = Some k).
  { unfold key_type. fold a.
    destruct (field r0 (attr_name a)) as [| |b|n|s|xs|fs] eqn:Hf; try done.
    - destruct (autoIncrement a) eqn:Hauto; [|done].
      case_bool_decide as Hrange; simplify_eq.
      pose proof (autoIncrement_INTEGER m Hauto) as Ht. unfold key_type in Ht. fold a in Ht.
      split; [by right|]. rewrite Ht. by apply key_in_decimal.
    - destruct (coerce_key (attr_type a) (Num n)) eqn:Hk; simplify_eq.
      split; [left; by split_and!|exact (coerce_key_pk_value _ _ _ Hk)].
    - destruct (coerce_key (attr_type a) (Str s)) eqn:Hk; simplify_eq.
      split; [left; by split_and!|exact (coerce_key_pk_value _ _ _ Hk)]. }
  destruct Hdb1 as [Hdb1 Hkey].
  destruct (rows (table_of m db1) !! k) eqn:Hfree; [done|].
  destruct (Sequelize.link_all db1 _ (references m)) as [r1|] eqn:Hl; [|done].
  intros [= <- <-]. exists r0, k, db1. by split_and!.
Qed.

(** The database between the choice of the key and the insert has the
    rows of the one before. *)
Lemma create_chosen (m : model) (db db1 : database) (P Q : Prop) :
  P ∧ db1 = db
  ∨ Q ∧ db1 = with_table m
               (Table (rows (table_of m db)) (next_id (table_of m db) + 1)) db ->
  (∀ m', rows (table_of m' db1) = rows (table_of m' db))
  ∧ (∀ m', m ≠ m' -> table_of m' db1 = table_of m' db)
  ∧ unreachable db1 = unreachable db.
Proof.
  intros [[_ ->]|[_ ->]]; [done|]. rewrite unreachable_with_table.
  split_and!; [|by intros; apply table_of_with_table_ne|done].
  intros m'. destruct (decide (m = m')) as [<-|Hne];
    [by rewrite table_of_with_table|by rewrite table_of_with_table_ne].
Qed.

(** What a successful [create] has done: the row went into the model's
    table under its own key, which was free, and no other table changed. *)
Lemma create_ok (m : model) (values : jsval) (db db' : database) (r : row) :
  Sequelize.create m values db = (Ok r, db') ->
  ∃ k, Sequelize.key_of m r = Some k
     ∧ rows (table_of m db) !! k = None
     ∧ rows (table_of m db') = <[k := r]> (rows (table_of m db))
     ∧ (∀ m', m ≠ m' -> table_of m' db' = table_of m' db)
     ∧ unreachable db = None ∧ unreachable db' = None
     ∧ r.*1 = attr_name <$> rawAttributes m.
Proof.
  intros (r0 & k & db1 & Hb & Hq & Hdb1 & Hkey & Hfree & Hl & ->)%create_steps.
  assert (Hch : (∀ m', rows (table_of m' db1) = rows (table_of m' db))
                ∧ (∀ m', m ≠ m' -> table_of m' db1 = table_of m' db)
                ∧ unreachable db1 = unreachable db).
  { eapply create_chosen.
    destruct Hdb1 as [(? & ? & ?)|(? & ? & ? & ?)]; [left|right]; eauto. }
  destruct Hch as (Hrows & Hothers & Hup).
  exists k. apply link_all_spec in Hl as [Hkeys Hfields]. apply build_keys in Hb.
  rewrite table_of_with_table, unreachable_with_table. simpl.
  split_and!; try done.
  - unfold Sequelize.key_of.
    rewrite Hfields by (intros; by apply foreignKey_not_primaryKey).
    rewrite field_set_field_eq; [done|].
    rewrite Hb. apply list_elem_of_fmap. exists (primaryKeyAttribute m). split; [done|].
    apply primaryKeyAttribute_column.
  - by rewrite <- Hrows.
  - by rewrite Hrows.
  - intros m' Hm'. rewrite table_of_with_table_ne by done. by apply Hothers.
  - congruence.
  - by rewrite Hkeys, keys_set_field.
Qed.

(** A failed [create] changes no row. *)
Lemma create_throw (m : model) (values : jsval) (db db' : database) (e : exn) :
  Sequelize.create m values db = (Throw e, db') ->
  ∀ m', rows (table_of m' db') = rows (table_of m' db).
Proof.
  unfold Sequelize.create. intros H m'.
  assert (db' = db ∨
          db' = with_table m (Table (rows (table_of m db)) (next_id (table_of m db) + 1)) db)
    as [->| ->].
  { repeat case_match; simplify_eq; eauto. }
  - done.
  - destruct (decide (m = m')) as [<-|Hne].
    + by rewrite table_of_with_table.
    + by rewrite table_of_with_table_ne.
Qed.

(** ** Update and destroy *)

Lemma update_throw (m : model) (inst : row) (values : jsval) (db db' : database)
    (e : exn) :
  Sequelize.update m inst values db = (Throw e, db') -> db' = db.
Proof. unfold Sequelize.update. intros H. repeat case_match; by simplify_eq. Qed.

(** The steps of a successful [update]: the row that the statement
    writes, and the instance that is answered. *)
Lemma update_steps (m : model) (inst : row) (values : jsval) (db db' : database)
    (r : row) :
  Sequelize.update m inst values db = (Ok r, db') ->
  ∃ r1 r2,
    Sequelize.merge (rawAttributes m) inst values = Ok r1
    ∧ unreachable db = None
    ∧ Sequelize.link_all db r1 (references m) = Ok r2
    ∧ r = Sequelize.assign (rawAttributes m) inst values
    ∧ db' = match Sequelize.key_of m inst with
            | Some k =>
                if bool_decide (is_Some (rows (table_of m db) !! k))
                then with_table m
                       (Table (<[k := r2]> (rows (table_of m db)))
                              (next_id (table_of m db))) db
                else db
            | None => db
            end.
Proof.
  unfold Sequelize.update. intros H.
  destruct (Sequelize.merge (rawAttributes m) inst values) as [r1|] eqn:Hm; [|done].
  destruct (Sequelize.query db) as [[]|] eqn:Hq; [|done]. apply query_ok in Hq.
  destruct (Sequelize.link_all db r1 (references m)) as [r2|] eqn:Hl; [|done].
  exists r1, r2. split_and!; try done; repeat case_match; by simplify_eq.
Qed.

(** A successful [update] replaces the row under the key of the instance,
    keeps that key, and changes nothing else. *)
Lemma update_ok (m : model) (inst : row) (values : jsval) (db db' : database)
    (r : row) (k : pk) :
  Sequelize.update m inst values db = (Ok r, db') ->
  Sequelize.key_of m inst = Some k ->
  is_Some (rows (table_of m db) !! k) ->
  ∃ r', Sequelize.key_of m r' = Some k
      ∧ r'.*1 = attr_name <$> rawAttributes m
      ∧ rows (table_of m db') = <[k := r']> (rows (table_of m db))
      ∧ (∀ m', m ≠ m' -> table_of m' db' = table_of m' db)
      ∧ unreachable db' = unreachable db.
Proof.
  intros (r1 & r2 & Hm & _ & Hl & _ & ->)%update_steps Hk Hin.
  rewrite Hk, bool_decide_eq_true_2 by done. exists r2.
  apply link_all_spec in Hl as [Hkeys Hfields].
  rewrite table_of_with_table, unreachable_with_table. simpl.
  split_and!; try done.
  - unfold Sequelize.key_of in *.
    rewrite Hfields by (intros; by apply foreignKey_not_primaryKey).
    rewrite (merge_primaryKey _ _ _ _ _ (columns_NoDup m) Hm); [done| |];
      apply primaryKeyAttribute_column.
  - rewrite Hkeys. by eapply merge_keys.
  - intros m' Hm'. by rewrite table_of_with_table_ne.
Qed.

Lemma parent_not_child (a : association) : a ∈ associations -> parent a ≠ child a.
Proof.
  unfold associations. intros H.
  repeat (apply elem_of_cons in H as [->|H]); try done. by apply elem_of_nil in H.
Qed.

Lemma dependents_spec (m : model) (a : association) :
  a ∈ dependents m ↔ a ∈ associations ∧ parent a = m.
Proof. unfold dependents. by rewrite list_elem_of_filter, (comm and). Qed.

Lemma references_spec (m : model) (a : association) :
  a ∈ references m ↔ a ∈ associations ∧ child a = m.
Proof. unfold references. by rewrite list_elem_of_filter, (comm and). Qed.

Lemma orphan_lookup (k k0 : pk) (db : database) (a : association) (m : model) :
  rows (table_of m (Sequelize.orphan k db a)) !! k0 =
  if decide (child a = m)
  then Sequelize.set_null (foreignKey a) (pk_value k) <$> rows (table_of m db) !! k0
  else rows (table_of m db) !! k0.
Proof.
  unfold Sequelize.orphan. case_decide as Hm.
  - subst m. rewrite table_of_with_table. simpl. by rewrite lookup_fmap.
  - by rewrite table_of_with_table_ne.
Qed.

Lemma unreachable_orphans (k : pk) (l : list association) (db : database) :
  unreachable (foldl (Sequelize.orphan k) db l) = unreachable db.
Proof.
  revert db. induction l as [|a l IH]; intros db; simpl; [done|].
  rewrite IH. unfold Sequelize.orphan. by rewrite unreachable_with_table.
Qed.

(** Setting foreign keys to NULL removes no row and adds none, and only
    touches the tables of the children. *)
Lemma orphans_lookup (k k0 : pk) (l : list association) (db : database) (m : model) :
  (rows (table_of m (foldl (Sequelize.orphan k) db l)) !! k0 = None
   ↔ rows (table_of m db) !! k0 = None)
  ∧ ((∀ a, a ∈ l -> child a ≠ m) ->
     rows (table_of m (foldl (Sequelize.orphan k) db l)) !! k0
     = rows (table_of m db) !! k0).
Proof.
  revert db. induction l as [|a l IH]; intros db; simpl; [done|].
  destruct (IH (Sequelize.orphan k db a)) as [IH1 IH2]. split.
  - rewrite IH1, orphan_lookup. case_decide; [|done]. by rewrite fmap_None.
  - intros Hl. rewrite IH2 by (intros; by apply Hl, list_elem_of_further).
    rewrite orphan_lookup, decide_False; [done|]. apply Hl, list_elem_of_here.
Qed.

Lemma destroy_throw (m : model) (inst : row) (db db' : database) (e : exn) :
  Sequelize.destroy m inst db = (Throw e, db') -> db' = db.
Proof. unfold Sequelize.destroy. intros H. repeat case_match; by simplify_eq. Qed.

(** A successful [destroy] removes the row under the key of the instance. *)
Lemma destroy_ok (m : model) (inst : row) (db db' : database) (k : pk) :
  Sequelize.destroy m inst db = (Ok tt, db') ->
  Sequelize.key_of m inst = Some k ->
  rows (table_of m db') !! k = None
  ∧ (∀ k0, k0 ≠ k -> rows (table_of m db') !! k0 = rows (table_of m db) !! k0)
  ∧ unreachable db = None ∧ unreachable db' = None.
Proof.
  unfold Sequelize.destroy. intros H Hk.
  destruct (Sequelize.query db) as [[]|] eqn:Hq; [|done]. apply query_ok in Hq.
  rewrite Hk in H. injection H as <-.
  assert (Hm : ∀ a, a ∈ dependents m -> child a ≠ m).
  { intros a [Ha <-]%dependents_spec. by apply not_eq_sym, parent_not_child. }
  split_and!; [| |done|].
  - rewrite (proj2 (orphans_lookup _ _ _ _ _) Hm), table_of_with_table. simpl.
    apply lookup_delete_eq.
  - intros k0 Hk0.
    rewrite (proj2 (orphans_lookup _ _ _ _ _) Hm), table_of_with_table. simpl.
    by apply lookup_delete_ne.
  - by rewrite unreachable_orphans, unreachable_with_table.
Qed.

(** ** The invariant of the stored rows

    Every stored row sits under its own primary key and has exactly the
    columns of its table. *)

Lemma consistent_synced : consistent synced.
Proof. intros m k r. by destruct m. Qed.

Lemma consistent_rows (db db' : database) :
  (∀ m, rows (table_of m db') = rows (table_of m db)) ->
  consistent db -> consistent db'.
Proof. intros H Hc m k r. rewrite H. apply Hc. Qed.

Lemma consistent_create (m : model) (values : jsval) (db : database) :
  consistent db -> consistent (Sequelize.create m values db).2.
Proof.
  intros Hc. destruct (Sequelize.create m values db) as [[r|e] db'] eqn:H; simpl.
  - apply create_ok in H as (k & Hk & _ & Hrows & Hothers & _ & _ & Hcols).
    intros m' k' r'. destruct (decide (m = m')) as [<-|Hne].
    + rewrite Hrows, lookup_insert. case_decide; [|by apply Hc].
      intros [= <-]. by subst.
    + rewrite Hothers by done. apply Hc.
  - eapply consistent_rows; [|done]. by eapply create_throw.
Qed.

Lemma consistent_update (m : model) (inst : row) (values : jsval) (db : database)
    (k : pk) :
  rows (table_of m db) !! k = Some inst ->
  consistent db -> consistent (Sequelize.update m inst values db).2.
Proof.
  intros Hin Hc. destruct (Sequelize.update m inst values db) as [[r|e] db'] eqn:H; simpl.
  - destruct (Hc _ _ _ Hin) as [Hk _].
    apply (update_ok _ _ _ _ _ _ k) in H as (r0 & Hkr & Hcols & Hrows & Hothers & _);
      [|done|by rewrite Hin].
    intros m' k' r'. destruct (decide (m = m')) as [<-|Hne].
    + rewrite Hrows, lookup_insert. case_decide; [|by apply Hc].
      intros [= <-]. by subst.
    + rewrite Hothers by done. apply Hc.
  - apply update_throw in H as ->. done.
Qed.

Lemma key_of_set_null (m : model) (a : association) (v : jsval) (r : row) :
  a ∈ references m ->
  Sequelize.key_of m (Sequelize.set_null (foreignKey a) v r) = Sequelize.key_of m r
  ∧ (Sequelize.set_null (foreignKey a) v r).*1 = r.*1.
Proof.
  intros Ha. unfold Sequelize.set_null, Sequelize.key_of. case_match; [|done].
  rewrite keys_set_field, field_set_field_ne; [done|].
  by apply not_eq_sym, foreignKey_not_primaryKey.
Qed.

Lemma consistent_orphans (k : pk) (l : list association) (db : database) :
  (∀ a, a ∈ l -> a ∈ associations) ->
  consistent db -> consistent (foldl (Sequelize.orphan k) db l).
Proof.
  revert db. induction l as [|a l IH]; intros db Hl Hc; simpl; [done|].
  apply IH; [intros; by apply Hl, list_elem_of_further|].
  intros m k0 r. rewrite orphan_lookup. case_decide as Hm; [|by apply Hc].
  intros (r0 & Hr0 & ->)%fmap_Some. apply Hc in Hr0 as [Hk Hcols].
  destruct (key_of_set_null m a (pk_value k) r0) as [-> ->]; [|done].
  apply references_spec. split; [|done]. apply Hl, list_elem_of_here.
Qed.

Lemma consistent_destroy (m : model) (inst : row) (db : database) :
  consistent db -> consistent (Sequelize.destroy m inst db).2.
Proof.
  intros Hc. unfold Sequelize.destroy.
  destruct (Sequelize.query db); [|done].
  destruct (Sequelize.key_of m inst) as [k|]; [|done]. simpl.
  apply consistent_orphans; [by intros c [? _]%dependents_spec|].
  intros m' k' r'. destruct (decide (m = m')) as [<-|Hne].
  - rewrite table_of_with_table. simpl. intros [_ ?]%lookup_delete_Some. by apply Hc.
  - rewrite table_of_with_table_ne by done. apply Hc.
Qed.

(** ** The by-id handlers *)


(** The lookup of a key that names a row, and of one that names none. *)
Lemma findByPk_key (m : model) (param : jsval) (db : database) (k : pk) :
  unreachable db = None ->
  coerce_key (key_type m) param = Some k ->
  Sequelize.findByPk m param db = Ok (rows (table_of m db) !! k).
Proof.
  intros Hup Hk. unfold Sequelize.findByPk.
  rewrite (proj2 (query_ok db) Hup), Hk.
  destruct param; try done; by destruct (key_type m).
Qed.

(** A lookup only reads: whatever it answers, a handler that stops at a
    missing row hands the database back as it got it. *)
Lemma by_id_absent (m : model) (req : request) (db : database) :
  Sequelize.findByPk m (params_id req) db = Ok None ->
  get_one m req db = (not_found m, db)
  ∧ update_one m req db = (not_found m, db)
  ∧ delete_one m req db = (not_found m, db).
Proof. intros H. unfold get_one, update_one, delete_one. by rewrite H. Qed.

Lemma delete_one_204 (m : model) (req : request) (db db' : database) :
  delete_one m req db = (send 204, db') ->
  ∃ inst, Sequelize.findByPk m (params_id req) db = Ok (Some inst)
        ∧ Sequelize.destroy m inst db = (Ok tt, db').
Proof.
  unfold delete_one.
  destruct (Sequelize.findByPk m (params_id req) db) as [[inst|]|]; try done.
  destruct (Sequelize.destroy m inst db) as [[[]|] db1] eqn:Hd; try done.
  intros [= <-]. eauto.
Qed.

Lemma gone_absent (m : model) (req : request) (k : pk) (db : database) :
  coerce_key (key_type m) (params_id req) = Some k ->
  gone m req k db -> rows (table_of m db) !! k = None.
Proof.
  intros Hk [H|(db0 & Hc & Hdel)]; [done|].
  apply delete_one_204 in Hdel as (inst & Hfind & Hd).
  assert (Hup : unreachable db0 = None).
  { unfold Sequelize.destroy in Hd. destruct (Sequelize.query db0) as [[]|] eqn:Hq; [|done].
    by apply query_ok. }
  rewrite (findByPk_key _ _ _ k) in Hfind by done. injection Hfind as Hin.
  apply Hc in Hin as [Hkey _].
  by apply (destroy_ok _ _ _ _ k) in Hd as (? & _).
Qed.

(** C5 (amended).  An identifier that the database reads as a key and
    under which no row is stored, whether none was ever created or a
    delete has removed it, gets the 404 answer of the model from the get,
    the update and the delete handler alike, as long as the database
    answers; in particular a second delete of the same identifier is
    answered 404 and not 204. *)
Theorem by_id_not_found (m : model) (req : request) (db : database) (k : pk) :
  unreachable db = None ->
  coerce_key (key_type m) (params_id req) = Some k ->
  gone m req k db ->
  get_one m req db = (json 404 (error (name m +:+ " not found")), db)
  ∧ update_one m req db = (json 404 (error (name m +:+ " not found")), db)
  ∧ delete_one m req db = (json 404 (error (name m +:+ " not found")), db).
Proof.
  intros Hup Hk Hgone. apply by_id_absent.
  rewrite (findByPk_key _ _ _ k) by done. f_equal. by eapply gone_absent.
Qed.

(** C10.  A by-id request whose identifier names no stored row writes
    nothing: the handler hands back the database it was given, whether
    the database can read the identifier as a key or not; when it can and
    answers, the response is the 404 of the model, and no other response
    has that status. *)
Theorem not_found_writes_nothing (m : model) (h : handler) (req : request)
    (db : database) :
  h ∈ by_id_handlers m ->
  (∀ k, coerce_key (key_type m) (params_id req) = Some k ->
        rows (table_of m db) !! k = None) ->
  (h req db).2 = db
  ∧ (∀ k, unreachable db = None ->
          coerce_key (key_type m) (params_id req) = Some k ->
          (h req db).1 = not_found m)
  ∧ (status (h req db).1 = 404 -> (h req db).1 = not_found m).
Proof.
  intros Hh Habs.
  assert (Hfind : Sequelize.findByPk m (params_id req) db = Ok None
                  ∨ ∃ e, Sequelize.findByPk m (params_id req) db = Throw e).
  { unfold Sequelize.findByPk.
    destruct (Sequelize.query db) as [[]|e]; simpl;
      [|destruct (params_id req); eauto].
    destruct (coerce_key (key_type m) (params_id req)) as [k|] eqn:Hk;
      [rewrite (Habs k eq_refl)|]; destruct (params_id req); eauto. }
  assert (Hfound : ∀ k, unreachable db = None ->
            coerce_key (key_type m) (params_id req) = Some k ->
            Sequelize.findByPk m (params_id req) db = Ok None).
  { intros k Hup Hk. by rewrite (findByPk_key _ _ _ k), (Habs k). }
  unfold by_id_handlers in Hh.
  repeat (apply elem_of_cons in Hh as [->|Hh]); [..|by apply elem_of_nil in Hh];
    unfold get_one, update_one, delete_one;
    destruct Hfind as [->|[e Hfind]]; simpl; try done;
    rewrite Hfind; simpl; (split_and!; [done| |done]);
    intros k Hup Hk; rewrite (Hfound k Hup Hk) in Hfind; done.
Qed.


(** ** Failures *)

Lemma create_one_fails (m : model) (req : request) (db : database) :
  failed (create_one m req db).1 ->
  ∃ e, (create_one m req db).1 = json 400 (error (message e))
     ∧ (Sequelize.create m (body req) db).1 = Throw e.
Proof.
  unfold failed, create_one.
  destruct (Sequelize.create m (body req) db) as [[r|e] db']; simpl; [lia|eauto].
Qed.

Lemma list_all_fails (m : model) (req : request) (db : database) :
  failed (list_all m req db).1 ->
  ∃ e, (list_all m req db).1 = json 500 (error (message e))
     ∧ Sequelize.findAll m db = Throw e.
Proof.
  unfold failed, list_all.
  destruct (Sequelize.findAll m db) as [rs|e]; simpl; [lia|eauto].
Qed.

Lemma get_one_fails (m : model) (req : request) (db : database) :
  failed (get_one m req db).1 ->
  ((get_one m req db).1 = not_found m
   ∧ Sequelize.findByPk m (params_id req) db = Ok None)
  ∨ ∃ e, (get_one m req db).1 = json 500 (error (message e))
       ∧ Sequelize.findByPk m (params_id req) db = Throw e.
Proof.
  unfold failed, get_one.
  destruct (Sequelize.findByPk m (params_id req) db) as [[r|]|e]; simpl;
    [lia|eauto|eauto].
Qed.

Lemma update_one_fails (m : model) (req : request) (db : database) :
  failed (update_one m req db).1 ->
  ((update_one m req db).1 = not_found m
   ∧ Sequelize.findByPk m (params_id req) db = Ok None)
  ∨ ∃ e, (update_one m req db).1 = json 400 (error (message e))
       ∧ (Sequelize.findByPk m (params_id req) db = Throw e
          ∨ ∃ inst, Sequelize.findByPk m (params_id req) db = Ok (Some inst)
                  ∧ (Sequelize.update m inst (body req) db).1 = Throw e).
Proof.
  unfold failed, update_one.
  destruct (Sequelize.findByPk m (params_id req) db) as [[inst|]|e]; simpl;
    [|eauto|eauto].
  destruct (Sequelize.update m inst (body req) db) as [[r|e] db'] eqn:Hu; simpl;
    [lia|]. intros _. right. exists e. split; [done|]. right. exists inst.
  by rewrite Hu.
Qed.

Lemma delete_one_fails (m : model) (req : request) (db : database) :
  failed (delete_one m req db).1 ->
  ((delete_one m req db).1 = not_found m
   ∧ Sequelize.findByPk m (params_id req) db = Ok None)
  ∨ ∃ e, (delete_one m req db).1 = json 500 (error (message e))
       ∧ (Sequelize.findByPk m (params_id req) db = Throw e
          ∨ ∃ inst, Sequelize.findByPk m (params_id req) db = Ok (Some inst)
                  ∧ (Sequelize.destroy m inst db).1 = Throw e).
Proof.
  unfold failed, delete_one.
  destruct (Sequelize.findByPk m (params_id req) db) as [[inst|]|e]; simpl;
    [|eauto|eauto].
  destruct (Sequelize.destroy m inst db) as [[[]|e] db'] eqn:Hu; simpl;
    [lia|]. intros _. right. exists e. split; [done|]. right. exists inst.
  by rewrite Hu.
Qed.

(** *** Register and login *)

(** [bcrypt] is not among the declarations of [index.js]. *)
Lemma bcrypt_unbound : resolve index_declarations "bcrypt"
                       = Throw (ReferenceError "bcrypt is not defined").
Proof. reflexivity. Qed.


Lemma register_outcome (req : request) (db : database) :
  register req db =
  match destructure (body req) with
  | Ok _ => (json 400 (error "bcrypt is not defined"), db)
  | Throw e => (json 400 (error (message e)), db)
  end.
Proof.
  unfold register, register_in. rewrite bcrypt_unbound.
  by destruct (destructure (body req)).
Qed.

(** C1 (as the code has it).  The register handler answers 400 to every
    request and stores nothing: for a body that can be destructured the
    message is that of the reference to the undeclared [bcrypt]. *)
Theorem register_always_400 (req : request) (db : database) :
  status (register req db).1 = 400
  ∧ (register req db).2 = db
  ∧ (destructure (body req) = Ok tt ->
     register req db = (json 400 (error "bcrypt is not defined"), db)).
Proof.
  rewrite register_outcome.
  destruct (destructure (body req)) as [[]|e]; by simpl.
Qed.

Lemma login_outcome (p : process) (req : request) (db : database) :
  ∃ msg, login p req db = (json 400 (error msg), db).
Proof.
  unfold login, login_in, login_after_lookup.
  destruct (destructure (body req)); simpl; [|eauto].
  destruct (Sequelize.findOne User _ db) as [[u|]|e]; simpl; [|eauto|eauto].
  eauto.
Qed.



(** *** Every failure has the same shape *)

Lemma register_fails (req : request) (db : database) :
  ∃ msg, (register req db).1 = json 400 (error msg).
Proof.
  rewrite register_outcome. destruct (destructure (body req)); simpl; eauto.
Qed.

Lemma routes_inv (p : process) (r : route) :
  r ∈ routes p ->
  (∃ m, route_model r = Some m
      ∧ ((operation_of r = OpCreate ∧ route_handler r = create_one m)
         ∨ (operation_of r = OpList ∧ route_handler r = list_all m)
         ∨ (operation_of r = OpGet ∧ route_handler r = get_one m)
         ∨ (operation_of r = OpUpdate ∧ route_handler r = update_one m)
         ∨ (operation_of r = OpDelete ∧ route_handler r = delete_one m))
      ∧ guarded r = bool_decide (m ≠ DocumentTransaction))
  ∨ (route_model r = None ∧ guarded r = false
     ∧ ((operation_of r = OpRegister ∧ route_handler r = register)
        ∨ (operation_of r = OpLogin ∧ route_handler r = login p))).
Proof.
  unfold routes, crud. simpl. intros H.
  repeat (apply elem_of_cons in H as [->|H]); [..|by apply elem_of_nil in H];
    simpl; (left; eexists; split; [reflexivity|]; naive_solver) || (right; naive_solver).
Qed.

Lemma thrown_response (op : operation) (m : model) (req : request) (db : database)
    (e : exn) (h : handler) :
  (op = OpCreate ∧ h = create_one m) ∨ (op = OpList ∧ h = list_all m)
  ∨ (op = OpGet ∧ h = get_one m) ∨ (op = OpUpdate ∧ h = update_one m)
  ∨ (op = OpDelete ∧ h = delete_one m) ->
  thrown op m req db e ->
  (h req db).1 = json (catch_status op) (error (message e)).
Proof.
  intros [[-> ->]|[[-> ->]|[[-> ->]|[[-> ->]|[-> ->]]]]]; simpl.
  - unfold create_one. destruct (Sequelize.create m (body req) db) as [[r|e'] db'];
      simpl; [done|by intros [= ->]].
  - unfold list_all. by intros ->.
  - unfold get_one. by intros ->.
  - unfold update_one. intros [->|(inst & -> & H)]; [done|].
    destruct (Sequelize.update m inst (body req) db) as [[r|e'] db'];
      simpl in *; [done|by injection H as ->].
  - unfold delete_one. intros [->|(inst & -> & H)]; [done|].
    destruct (Sequelize.destroy m inst db) as [[[]|e'] db'];
      simpl in *; [done|by injection H as ->].
Qed.

(** C7.  Whenever a handler of the route table answers with a status of
    400 or more, the body is [{ error: msg }] for some message and the
    status is one of those of its operation: 400 for create, update,
    register and login, 500 for list and get (and for delete), 404 for a
    by-id operation, and then because the lookup found no row.  And when
    the storage call of an operation throws, the answer is the message of
    the exception under the status of that operation's [catch]: 400 for
    create and update, 500 for list and get (and delete). *)
Theorem failure_taxonomy (p : process) (r : route) (req : request) (db : database) :
  r ∈ routes p ->
  (failed (route_handler r req db).1 ->
     (∃ msg, content (route_handler r req db).1 = Some (error msg))
     ∧ status (route_handler r req db).1 ∈ [400; 404; 500]
     ∧ status (route_handler r req db).1 ∈ failure_statuses (operation_of r)
     ∧ (status (route_handler r req db).1 = 404 ->
        ∃ m, route_model r = Some m
           ∧ Sequelize.findByPk m (params_id req) db = Ok None))
  ∧ (∀ m e, route_model r = Some m -> thrown (operation_of r) m req db e ->
       (route_handler r req db).1
       = json (catch_status (operation_of r)) (error (message e))).
Proof.
  intros Hr. split.
  - intros Hf.
    destruct (routes_inv p r Hr) as
      [(m & Hm & [[Hop Hh]|[[Hop Hh]|[[Hop Hh]|[[Hop Hh]|[Hop Hh]]]]] & _)
      |(Hm & _ & [[Hop Hh]|[Hop Hh]])];
      rewrite Hop; rewrite Hh in Hf |- *.
    + destruct (create_one_fails _ _ _ Hf) as (e & -> & _). simpl.
      split_and!; [eauto|compute_done|apply list_elem_of_here|done].
    + destruct (list_all_fails _ _ _ Hf) as (e & -> & _). simpl.
      split_and!; [eauto|compute_done|apply list_elem_of_here|done].
    + destruct (get_one_fails _ _ _ Hf) as [[-> Hnone]|(e & -> & _)]; simpl.
      * split_and!; [eauto|compute_done|apply list_elem_of_here|eauto].
      * split_and!; [eauto|compute_done|apply list_elem_of_further, list_elem_of_here|done].
    + destruct (update_one_fails _ _ _ Hf) as [[-> Hnone]|(e & -> & _)]; simpl.
      * split_and!; [eauto|compute_done|apply list_elem_of_here|eauto].
      * split_and!; [eauto|compute_done|apply list_elem_of_further, list_elem_of_here|done].
    + destruct (delete_one_fails _ _ _ Hf) as [[-> Hnone]|(e & -> & _)]; simpl.
      * split_and!; [eauto|compute_done|apply list_elem_of_here|eauto].
      * split_and!; [eauto|compute_done|apply list_elem_of_further, list_elem_of_here|done].
    + destruct (register_fails req db) as [msg ->]. simpl.
      split_and!; [eauto|compute_done|apply list_elem_of_here|done].
    + destruct (login_outcome p req db) as [msg ->]. simpl.
      split_and!; [eauto|compute_done|apply list_elem_of_here|done].
  - intros m e Hm Hthrown.
    destruct (routes_inv p r Hr) as [(m' & Hm' & Hops & _)|(Hnone & _)];
      [|congruence].
    assert (m' = m) as -> by congruence.
    eapply thrown_response; [|done]. naive_solver.
Qed.

(** *** The authentication gate *)

Lemma find_route_spec (p : process) (req req' : request) (r : route) :
  find_route p req = Some (r, req') ->
  r ∈ routes p ∧ route_match r req = Some req'.
Proof.
  unfold find_route. intros H. apply head_Some_elem_of in H.
  apply list_elem_of_omap in H as (r0 & Hr0 & Hm).
  destruct (route_match r0 req) as [req0|] eqn:Hreq; [|done].
  by injection Hm as -> ->.
Qed.

Lemma route_match_authorization (r : route) (req req' : request) :
  route_match r req = Some req' -> authorization req' = authorization req.
Proof.
  unfold route_match. intros H. repeat case_match; by simplify_eq.
Qed.

(** C3.  On every route of [User], [Resource], [DID] and [Document], a
    request without a bearer token is answered 401 by the middleware
    whatever the handler behind it is, and the database is left as it was;
    on every route of [DocumentTransaction] the handler runs on the request
    as it came, token or no token. *)
Theorem auth_gate (p : process) (r : route) (req : request) (db : database) :
  r ∈ routes p ->
  (∀ m, route_model r = Some m -> m ∈ guarded_models -> authorization req = None ->
     (∀ h, run p (guarded r) h req db = (send 401, db))
     ∧ (∀ req0, find_route p req0 = Some (r, req) ->
          app p req0 db = Some (send 401, db)))
  ∧ (route_model r = Some DocumentTransaction ->
     run p (guarded r) (route_handler r) req db = route_handler r req db
     ∧ (∀ req0, find_route p req0 = Some (r, req) ->
          app p req0 db = Some (route_handler r req db))).
Proof.
  intros Hr.
  destruct (routes_inv p r Hr) as [(m & Hm & _ & Hg)|(Hm & Hg & _)]; rewrite Hm.
  - split.
    + intros m' [= <-] Hin Hauth.
      assert (guarded r = true) as Hgt.
      { rewrite Hg. apply bool_decide_eq_true_2. intros ->.
        unfold guarded_models in Hin.
        repeat (apply elem_of_cons in Hin as [?|Hin]); try done.
        by apply elem_of_nil in Hin. }
      assert (∀ h, run p (guarded r) h req db = (send 401, db)) as Hrun.
      { intros h. unfold run, authenticateJWT. by rewrite Hgt, Hauth. }
      split; [done|]. intros req0 Hfind. unfold app. rewrite Hfind. simpl.
      by rewrite Hrun.
    + intros [= ->]. rewrite bool_decide_eq_false_2 in Hg by (intros H; by apply H).
      unfold run. rewrite Hg. split; [done|].
      intros req0 Hfind. unfold app. rewrite Hfind. simpl. unfold run. by rewrite Hg.
  - split; intros; done.
Qed.

(** *** The token script *)

(** C4 (as the code has it).  Without [ACCESS_TOKEN_SECRET] in the
    environment the script stops at the call of
    [generateAccessTokenSecret], which no declaration binds: no secret is
    generated and no token is issued. *)
Theorem token_js_without_secret (p : process) :
  truthy (env p !! "ACCESS_TOKEN_SECRET") = None ->
  accessTokenSecret p
  = Throw (ReferenceError "generateAccessTokenSecret is not defined")
  ∧ token_js p
    = Throw (ReferenceError "generateAccessTokenSecret is not defined").
Proof.
  intros H. unfold token_js, accessTokenSecret. by rewrite H.
Qed.

(** With the variable set, the secret is the one of the environment. *)
Lemma token_js_with_secret (p : process) (secret : string) :
  truthy (env p !! "ACCESS_TOKEN_SECRET") = Some secret ->
  token_js p
  = generateAccessToken secret (clock p)
      (Obj [("id", Num 123); ("username", Str "example_user")]).
Proof. intros H. unfold token_js, accessTokenSecret. by rewrite H. Qed.

(** *** The password column *)

(** C8 (as the code has it).  The [User] model has no [password] column;
    whatever module scope the register handler runs in, a row that it
    creates has the columns of the model and none for the hash, and no row
    of a consistent database has one. *)
Theorem User_has_no_password_column :
  has_column User "password" = false
  ∧ (∀ scope req db r db',
       register_in scope req db = (json 201 (Obj r), db') ->
       field r "password" = Undefined)
  ∧ (∀ db k r, consistent db -> rows (Users db) !! k = Some r ->
       field r "password" = Undefined).
Proof.
  assert (Hcols : ∀ r : row, r.*1 = attr_name <$> rawAttributes User ->
                  field r "password" = Undefined).
  { intros r Hr. apply field_absent. rewrite Hr. compute_done. }
  split_and!; [done| |].
  - intros scope req db r db'. unfold register_in.
    destruct (destructure (body req)); [|done].
    match goal with |- context [mbind _ ?x] => destruct (mbind _ x) end; [|done].
    destruct (Sequelize.create User _ db) as [[r0|e] db0] eqn:Hc; [|done].
    intros [= <- <-]. apply create_ok in Hc as (k & _ & _ & _ & _ & _ & _ & Hk).
    by apply Hcols.
  - intros db k r Hc Hr. apply (Hc User) in Hr as [_ Hr]. by apply Hcols.
Qed.

(** *** Tokens *)


(** *** Every reachable database is consistent *)

Lemma findByPk_Some (m : model) (param : jsval) (db : database) (inst : row) :
  Sequelize.findByPk m param db = Ok (Some inst) ->
  ∃ k, rows (table_of m db) !! k = Some inst.
Proof.
  unfold Sequelize.findByPk. intros H.
  destruct (Sequelize.query db); simpl in H; [|by destruct param].
  destruct (coerce_key (key_type m) param) as [k|]; [|by destruct param].
  exists k. destruct param; by simplify_eq.
Qed.

Lemma consistent_route (p : process) (r : route) (req : request) (db : database) :
  r ∈ routes p -> consistent db -> consistent (route_handler r req db).2.
Proof.
  intros Hr Hc.
  destruct (routes_inv p r Hr) as
    [(m & _ & [[_ ->]|[[_ ->]|[[_ ->]|[[_ ->]|[_ ->]]]]] & _)
    |(_ & _ & [[_ ->]|[_ ->]])].
  - unfold create_one.
    pose proof (consistent_create m (body req) db Hc) as H.
    by destruct (Sequelize.create m (body req) db) as [[?|?] ?].
  - unfold list_all. by destruct (Sequelize.findAll m db).
  - unfold get_one. by destruct (Sequelize.findByPk m (params_id req) db) as [[?|]|].
  - unfold update_one.
    destruct (Sequelize.findByPk m (params_id req) db) as [[inst|]|] eqn:Hf; try done.
    apply findByPk_Some in Hf as [k Hk].
    pose proof (consistent_update m inst (body req) db k Hk Hc) as H.
    by destruct (Sequelize.update m inst (body req) db) as [[?|?] ?].
  - unfold delete_one.
    destruct (Sequelize.findByPk m (params_id req) db) as [[inst|]|] eqn:Hf; try done.
    pose proof (consistent_destroy m inst db Hc) as H.
    by destruct (Sequelize.destroy m inst db) as [[[]|?] ?].
  - rewrite register_outcome. by destruct (destructure (body req)).
  - by destruct (login_outcome p req db) as [msg ->].
Qed.

Lemma consistent_app (p : process) (req : request) (db : database)
    (out : response * database) :
  app p req db = Some out -> consistent db -> consistent out.2.
Proof.
  unfold app. intros ([r req'] & Hfind & ->)%fmap_Some Hc.
  apply find_route_spec in Hfind as [Hr _]. simpl. unfold run.
  destruct (guarded r); [|by apply (consistent_route p)].
  destruct (authenticateJWT p req'); [by apply (consistent_route p)|done].
Qed.

Lemma reachable_consistent (p : process) (db : database) :
  reachable p db -> consistent db.
Proof.
  induction 1 as [|req db out _ IH Happ|db state _ IH].
  - apply consistent_synced.
  - exact (consistent_app p req db out Happ IH).
  - eapply consistent_rows; [|exact IH]. by intros [].
Qed.

(** * Further properties of the code *)

(** ** Dispatch *)

Lemma route_keys_NoDup (p : process) : NoDup (route_key <$> routes p).
Proof. compute_done. Qed.

Lemma NoDup_fmap_eq {A B} (f : A -> B) (l : list A) (x y : A) :
  NoDup (f <$> l) -> x ∈ l -> y ∈ l -> f x = f y -> x = y.
Proof.
  induction l as [|a l IH]; csimpl; [by intros _ ?%elem_of_nil|].
  intros [Ha Hnd]%NoDup_cons Hx Hy Hf.
  apply elem_of_cons in Hx as [->|Hx]; apply elem_of_cons in Hy as [->|Hy];
    [done| | |by apply IH].
  - exfalso. apply Ha. rewrite Hf. by apply list_elem_of_fmap_2.
  - exfalso. apply Ha. rewrite <- Hf. by apply list_elem_of_fmap_2.
Qed.

(** A request tells the key of any route that matches it. *)
Lemma route_match_key (r : route) (req req' : request) :
  route_match r req = Some req' ->
  route_key r = (method req,
                 default "" (head (path req)),
                 bool_decide (length (path req) = 2%nat)).
Proof.
  unfold route_match, route_key. intros H.
  case_bool_decide as Hm; [|done]. rewrite Hm.
  destruct (path req) as [|seg [|id [|? ?]]]; try done;
    destruct (route_by_id r); try done; simpl.
  - destruct (String.eqb_spec seg (route_path r)); [by subst|done].
  - destruct (String.eqb_spec seg (route_path r)); [by subst|done].
Qed.

(** X1.  No route of the table shadows another: a request that matches
    the pattern of a route is dispatched to that very route, wherever it
    stands in the table. *)
Theorem dispatch_unique (p : process) (r : route) (req req' : request) :
  r ∈ routes p ->
  route_match r req = Some req' ->
  find_route p req = Some (r, req').
Proof.
  intros Hr Hm. unfold find_route.
  assert (Huniq : ∀ r0 req0, r0 ∈ routes p -> route_match r0 req = Some req0 -> r0 = r).
  { intros r0 req0 Hr0 Hm0.
    apply (NoDup_fmap_eq route_key (routes p)); [apply route_keys_NoDup|done|done|].
    by rewrite (route_match_key _ _ _ Hm), (route_match_key _ _ _ Hm0). }
  revert Hr Huniq. generalize (routes p). intros l.
  induction l as [|a l IH]; [by intros ?%elem_of_nil|].
  intros Hr Huniq. csimpl.
  destruct (route_match a req) as [req0|] eqn:Ha; simpl.
  - assert (a = r) as -> by (eapply Huniq; [apply list_elem_of_here|done]).
    congruence.
  - apply IH.
    + apply elem_of_cons in Hr as [->|Hr]; [congruence|done].
    + intros r0 req0 Hr0. apply Huniq. by apply list_elem_of_further.
Qed.

Lemma routes_GET (p : process) (r : route) :
  r ∈ routes p -> route_method r = GET ->
  ∃ m, route_handler r = list_all m ∨ route_handler r = get_one m.
Proof.
  unfold routes, crud. simpl. intros H.
  repeat (apply elem_of_cons in H as [->|H]); [..|by apply elem_of_nil in H];
    simpl; try discriminate; eauto.
Qed.

Lemma route_match_method (r : route) (req req' : request) :
  route_match r req = Some req' -> route_method r = method req.
Proof. unfold route_match. by case_bool_decide. Qed.

(** X2.  A GET request never changes the database: whichever route it is
    dispatched to, with or without a token, and whether the storage
    answers or throws, the database comes back as it was. *)
Theorem GET_reads_only (p : process) (req : request) (db : database)
    (out : response * database) :
  method req = GET ->
  app p req db = Some out ->
  out.2 = db.
Proof.
  unfold app. intros Hget ([r req'] & Hfind & ->)%fmap_Some.
  apply find_route_spec in Hfind as [Hr Hm]. simpl.
  apply route_match_method in Hm. rewrite Hget in Hm.
  destruct (routes_GET p r Hr Hm) as [m [-> | ->]]; unfold run;
    destruct (guarded r); [destruct (authenticateJWT p req')|..|destruct (authenticateJWT p req')|];
    try done; unfold list_all, get_one.
  all: try by destruct (Sequelize.findAll m db).
  all: by destruct (Sequelize.findByPk m _ db) as [[?|]|].
Qed.

(** ** The answers *)

Lemma routes_handlers (p : process) (r : route) :
  r ∈ routes p ->
  (∃ m, route_model r = Some m
      ∧ (route_handler r = create_one m ∨ route_handler r = list_all m
         ∨ route_handler r = get_one m ∨ route_handler r = update_one m
         ∨ route_handler r = delete_one m))
  ∨ (route_model r = None
     ∧ (route_handler r = register ∨ route_handler r = login p)).
Proof.
  intros Hr. destruct (routes_inv p r Hr) as [(m & Hm & H & _)|(Hm & _ & H)].
  - left. exists m. split; [done|].
    destruct H as [[_ ->]|[[_ ->]|[[_ ->]|[[_ ->]|[_ ->]]]]]; eauto 10.
  - right. split; [done|]. destruct H as [[_ ->]|[_ ->]]; eauto.
Qed.

(** X3.  Every handler of the route table answers with one of six
    statuses, and with a JSON body unless the status is 204, the answer of
    a successful delete, which has none. *)
Theorem handler_answers (p : process) (r : route) (req : request) (db : database) :
  r ∈ routes p ->
  status (route_handler r req db).1 ∈ statuses
  ∧ (content (route_handler r req db).1 = None
     ↔ status (route_handler r req db).1 = 204).
Proof.
  intros Hr.
  destruct (routes_handlers p r Hr)
    as [(m & _ & [->|[->|[->|[->| ->]]]])|(_ & [->| ->])].
  - unfold create_one. destruct (Sequelize.create m (body req) db) as [[?|?] ?];
      simpl; split; (compute_done || done).
  - unfold list_all. destruct (Sequelize.findAll m db);
      simpl; split; (compute_done || done).
  - unfold get_one. destruct (Sequelize.findByPk m (params_id req) db) as [[?|]|];
      simpl; split; (compute_done || done).
  - unfold update_one. destruct (Sequelize.findByPk m (params_id req) db) as [[?|]|];
      [destruct (Sequelize.update m _ (body req) db) as [[?|?] ?]|..];
      simpl; split; (compute_done || done).
  - unfold delete_one. destruct (Sequelize.findByPk m (params_id req) db) as [[?|]|];
      [destruct (Sequelize.destroy m _ db) as [[[]|?] ?]|..];
      simpl; split; (compute_done || done).
  - destruct (register_fails req db) as [msg ->]. simpl. split; (compute_done || done).
  - destruct (login_outcome p req db) as [msg ->]. simpl. split; (compute_done || done).
Qed.

(** X4.  The login handler never answers 200 and never writes: every
    request is answered 400 with an error body and no token, because the
    handler cannot get past the names that [index.js] does not declare. *)
Theorem login_never_succeeds (p : process) (req : request) (db : database) :
  status (login p req db).1 = 400
  ∧ (login p req db).2 = db
  ∧ (∃ msg, content (login p req db).1 = Some (error msg))
  ∧ prop (default Null (content (login p req db).1)) "token" = Undefined.
Proof.
  destruct (login_outcome p req db) as [msg ->]. simpl. eauto.
Qed.


(** ** What each write does to the rows *)

Lemma create_one_outcome (m : model) (req : request) (db : database) :
  create_one m req db =
  match Sequelize.create m (body req) db with
  | (Ok r, db') => (json 201 (Obj r), db')
  | (Throw e, db') => (json 400 (error (message e)), db')
  end.
Proof. reflexivity. Qed.

(** X5.  A create request either stores exactly one new row, under a key
    that was free, leaving every other row and every other table as they
    were, and answers 201 with that row; or it answers 400 and all rows of
    all tables are as before. *)
Theorem create_one_effect (m : model) (req : request) (db : database) :
  (∃ r k,
     (create_one m req db).1 = json 201 (Obj r)
     ∧ Sequelize.key_of m r = Some k
     ∧ rows (table_of m db) !! k = None
     ∧ rows (table_of m (create_one m req db).2) = <[k := r]> (rows (table_of m db))
     ∧ ∀ m', m ≠ m' -> table_of m' (create_one m req db).2 = table_of m' db)
  ∨ (status (create_one m req db).1 = 400
     ∧ ∀ m', rows (table_of m' (create_one m req db).2) = rows (table_of m' db)).
Proof.
  rewrite create_one_outcome.
  destruct (Sequelize.create m (body req) db) as [[r|e] db'] eqn:Hc; simpl.
  - left. apply create_ok in Hc as (k & Hk & Hfree & Hrows & Hothers & _).
    exists r, k. by split_and!.
  - right. split; [done|]. by eapply create_throw.
Qed.

Lemma update_effect (m : model) (inst : row) (values : jsval) (db : database)
    (m' : model) :
  dom (rows (table_of m' (Sequelize.update m inst values db).2))
  = dom (rows (table_of m' db))
  ∧ (m ≠ m' -> table_of m' (Sequelize.update m inst values db).2 = table_of m' db).
Proof.
  unfold Sequelize.update.
  destruct (Sequelize.merge (rawAttributes m) inst values); [|done].
  destruct (Sequelize.query db); [|done].
  destruct (Sequelize.link_all db _ (references m)); [|done].
  destruct (Sequelize.key_of m inst) as [k|]; [|done].
  case_bool_decide as Hin; [|done]. simpl.
  destruct (decide (m = m')) as [<-|Hne].
  - rewrite table_of_with_table. simpl. split; [|done].
    destruct Hin as [r0 Hr0]. by eapply dom_insert_lookup_L.
  - by rewrite table_of_with_table_ne.
Qed.

(** X6.  An update request never adds or removes a row and changes no
    table but the one of its model; unless it answers 200 it changes
    nothing at all. *)
Theorem update_one_effect (m m' : model) (req : request) (db : database) :
  dom (rows (table_of m' (update_one m req db).2)) = dom (rows (table_of m' db))
  ∧ (m ≠ m' -> table_of m' (update_one m req db).2 = table_of m' db)
  ∧ (status (update_one m req db).1 ≠ 200 -> (update_one m req db).2 = db).
Proof.
  unfold update_one.
  destruct (Sequelize.findByPk m (params_id req) db) as [[inst|]|]; try done.
  pose proof (update_effect m inst (body req) db m') as [Hdom Hother].
  destruct (Sequelize.update m inst (body req) db) as [[r|e] db'] eqn:Hu;
    simpl in *; split_and!; try done.
  intros _. by eapply update_throw.
Qed.

Lemma findByPk_Some_key (m : model) (param : jsval) (db : database) (inst : row) :
  Sequelize.findByPk m param db = Ok (Some inst) ->
  ∃ k, coerce_key (key_type m) param = Some k
     ∧ rows (table_of m db) !! k = Some inst
     ∧ unreachable db = None.
Proof.
  unfold Sequelize.findByPk. intros H.
  destruct (Sequelize.query db) as [[]|] eqn:Hq; simpl in H; [|by destruct param].
  apply query_ok in Hq.
  destruct (coerce_key (key_type m) param) as [k|]; [|by destruct param].
  exists k. split_and!; [done| |done]. destruct param; by simplify_eq.
Qed.

Lemma orphans_dom (k : pk) (l : list association) (db : database) (m : model) :
  dom (rows (table_of m (foldl (Sequelize.orphan k) db l))) = dom (rows (table_of m db)).
Proof.
  apply set_eq. intros k0. rewrite !elem_of_dom, <- !not_eq_None_Some.
  by rewrite (proj1 (orphans_lookup k k0 l db m)).
Qed.

(** X7.  A delete request answered 204 has removed the row it was asked
    for and no other row of any table: the rows of the other tables are
    all still there, also those that referred to the deleted one. *)
Theorem delete_one_effect (m : model) (req : request) (db db' : database) :
  consistent db ->
  delete_one m req db = (send 204, db') ->
  ∃ k, coerce_key (key_type m) (params_id req) = Some k
     ∧ is_Some (rows (table_of m db) !! k)
     ∧ rows (table_of m db') = delete k (rows (table_of m db))
     ∧ ∀ m', m ≠ m' -> dom (rows (table_of m' db')) = dom (rows (table_of m' db)).
Proof.
  intros Hc Hdel. apply delete_one_204 in Hdel as (inst & Hfind & Hd).
  apply findByPk_Some_key in Hfind as (k & Hk & Hin & _).
  destruct (Hc _ _ _ Hin) as [Hkey _].
  exists k. split_and!; [done|by rewrite Hin| |].
  - apply map_eq. intros k0. destruct (decide (k0 = k)) as [->|Hne].
    + rewrite lookup_delete_eq. by apply (destroy_ok _ _ _ _ k) in Hd as (? & _).
    + rewrite lookup_delete_ne by done.
      by apply (destroy_ok _ _ _ _ k) in Hd as (_ & -> & _).
  - intros m' Hm'. unfold Sequelize.destroy in Hd.
    destruct (Sequelize.query db); [|done]. rewrite Hkey in Hd.
    injection Hd as <-. rewrite orphans_dom. by rewrite table_of_with_table_ne.
Qed.

(** The handlers that write. *)
Lemma write_handlers_failed (m : model) (h : handler) (req : request) (db : database) :
  h = create_one m ∨ h = update_one m ∨ h = delete_one m ->
  failed (h req db).1 ->
  ∀ m', rows (table_of m' (h req db).2) = rows (table_of m' db).
Proof.
  unfold failed. intros [->|[->| ->]] Hf m'.
  - rewrite create_one_outcome in *.
    destruct (Sequelize.create m (body req) db) as [[r|e] db'] eqn:Hc; simpl in *; [lia|].
    by eapply create_throw.
  - unfold update_one in *.
    destruct (Sequelize.findByPk m (params_id req) db) as [[inst|]|]; try done.
    destruct (Sequelize.update m inst (body req) db) as [[r|e] db'] eqn:Hu;
      simpl in *; [lia|]. by apply update_throw in Hu as ->.
  - unfold delete_one in *.
    destruct (Sequelize.findByPk m (params_id req) db) as [[inst|]|]; try done.
    destruct (Sequelize.destroy m inst db) as [[[]|e] db'] eqn:Hd;
      simpl in *; [lia|]. by apply destroy_throw in Hd as ->.
Qed.

(** X8.  A write that fails leaves every row of every table as it was:
    whenever the create, update or delete handler of a model answers with
    400, 404 or 500, no row has been added, changed or removed. *)
Theorem failed_write_keeps_rows (m m' : model) (h : handler) (req : request)
    (db : database) :
  h ∈ [create_one m; update_one m; delete_one m] ->
  failed (h req db).1 ->
  rows (table_of m' (h req db).2) = rows (table_of m' db).
Proof.
  intros Hh Hf. apply (write_handlers_failed m); [|done].
  repeat (apply elem_of_cons in Hh as [->|Hh]); eauto.
  by apply elem_of_nil in Hh.
Qed.

(** ** Round trips *)

(** X10.  When the create handler answers 201 with a row, the list
    handler on the database the create left answers 200 with an array
    that holds that row. *)
Theorem create_then_list (m : model) (req req' : request) (db db' : database)
    (r : row) :
  create_one m req db = (json 201 (Obj r), db') ->
  ∃ rs, list_all m req' db' = (json 200 (Arr rs), db') ∧ Obj r ∈ rs.
Proof.
  rewrite create_one_outcome. intros Hc.
  destruct (Sequelize.create m (body req) db) as [[r0|e] db0] eqn:Hcr; [|done].
  injection Hc as -> ->.
  apply create_ok in Hcr as (k & _ & _ & Hrows & _ & _ & Hreach & _).
  unfold list_all, Sequelize.findAll. rewrite (proj2 (query_ok db') Hreach). simpl.
  eexists. split; [done|].
  apply list_elem_of_fmap_2, list_elem_of_fmap. exists (k, r). split; [done|].
  apply elem_of_map_to_list. by rewrite Hrows, lookup_insert_eq.
Qed.


(** ** What the rows hold *)

Lemma build_field (attrs : list attribute) (values : jsval) (r : row) (a : attribute) :
  NoDup (attr_name <$> attrs) ->
  Sequelize.build attrs values = Ok r ->
  a ∈ attrs ->
  Sequelize.validate a (prop values (attr_name a)) = Ok (field r (attr_name a)).
Proof.
  revert r. induction attrs as [|a0 attrs IH]; intros r Hnd Hb Ha.
  - by apply elem_of_nil in Ha.
  - simpl in Hb. csimpl in Hnd. apply NoDup_cons in Hnd as [Hfresh Hnd].
    destruct (Sequelize.validate a0 _) as [v|] eqn:Hv; simpl in Hb; [|done].
    destruct (Sequelize.build attrs values) as [r'|] eqn:Hr'; simpl in Hb; [|done].
    injection Hb as <-. simpl.
    apply elem_of_cons in Ha as [->|Ha].
    + by rewrite String.eqb_refl.
    + destruct (String.eqb_spec (attr_name a0) (attr_name a)) as [Heq|_].
      * exfalso. apply Hfresh. rewrite Heq. by apply list_elem_of_fmap_2.
      * by apply IH.
Qed.

Lemma merge_field (attrs : list attribute) (old : row) (values : jsval)
    (r : row) (a : attribute) :
  NoDup (attr_name <$> attrs) ->
  Sequelize.merge attrs old values = Ok r ->
  a ∈ attrs ->
  match prop values (attr_name a) with
  | Undefined => Ok (field old (attr_name a))
  | x => if primaryKey a then Ok (field old (attr_name a)) else Sequelize.validate a x
  end = Ok (field r (attr_name a)).
Proof.
  revert r. induction attrs as [|a0 attrs IH]; intros r Hnd Hm Ha.
  - by apply elem_of_nil in Ha.
  - simpl in Hm. csimpl in Hnd. apply NoDup_cons in Hnd as [Hfresh Hnd].
    match type of Hm with context [mbind _ ?x] => destruct x as [v|] eqn:Hv end;
      simpl in Hm; [|done].
    destruct (Sequelize.merge attrs old values) as [r'|] eqn:Hr'; simpl in Hm; [|done].
    injection Hm as <-. simpl.
    apply elem_of_cons in Ha as [->|Ha].
    + by rewrite String.eqb_refl.
    + destruct (String.eqb_spec (attr_name a0) (attr_name a)) as [Heq|_].
      * exfalso. apply Hfresh. rewrite Heq. by apply list_elem_of_fmap_2.
      * by apply IH.
Qed.

Lemma assign_keys (attrs : list attribute) (old : row) (values : jsval) :
  (Sequelize.assign attrs old values).*1 = attr_name <$> attrs.
Proof. induction attrs as [|a attrs IH]; [done|]. csimpl. by rewrite IH. Qed.

Lemma assign_field (attrs : list attribute) (old : row) (values : jsval)
    (a : attribute) :
  NoDup (attr_name <$> attrs) ->
  a ∈ attrs ->
  field (Sequelize.assign attrs old values) (attr_name a) =
  match prop values (attr_name a) with
  | Undefined => field old (attr_name a)
  | x =>
      if primaryKey a then field old (attr_name a)
      else match x with
           | Null => Null
           | _ => instance_value a x
           end
  end.
Proof.
  induction attrs as [|a0 attrs IH]; intros Hnd Ha.
  - by apply elem_of_nil in Ha.
  - csimpl in Hnd. apply NoDup_cons in Hnd as [Hfresh Hnd]. simpl.
    apply elem_of_cons in Ha as [->|Ha].
    + by rewrite String.eqb_refl.
    + destruct (String.eqb_spec (attr_name a0) (attr_name a)) as [Heq|_].
      * exfalso. apply Hfresh. rewrite Heq. by apply list_elem_of_fmap_2.
      * by apply IH.
Qed.

(** The columns that a model defines itself are not foreign keys. *)
Lemma define_not_foreignKey (m : model) (a : attribute) (c : association) :
  a ∈ define m -> c ∈ references m -> attr_name a ≠ foreignKey c.
Proof.
  intros Ha Hc Heq. pose proof (columns_NoDup m) as Hnd.
  unfold rawAttributes in Hnd. rewrite fmap_app in Hnd.
  apply NoDup_app in Hnd as (_ & Hdisj & _).
  apply (Hdisj (attr_name a)); [by apply list_elem_of_fmap_2|].
  rewrite Heq, <- list_fmap_compose. apply list_elem_of_fmap. by exists c.
Qed.

Lemma define_rawAttributes (m : model) (a : attribute) :
  a ∈ define m -> a ∈ rawAttributes m.
Proof. intros Ha. unfold rawAttributes. apply elem_of_app. by left. Qed.




Lemma update_one_200 (m : model) (req : request) (db db' : database) (r : row) :
  update_one m req db = (json 200 (Obj r), db') ->
  ∃ inst, Sequelize.findByPk m (params_id req) db = Ok (Some inst)
        ∧ Sequelize.update m inst (body req) db = (Ok r, db').
Proof.
  unfold update_one.
  destruct (Sequelize.findByPk m (params_id req) db) as [[inst|]|] eqn:Hf; try done.
  destruct (Sequelize.update m inst (body req) db) as [[r0|e] db0] eqn:Hup; [|done].
  intros [= -> ->]. eauto.
Qed.

(** X12.  An update is partial: in the row of a 200 answer a column of
    the model other than the key and the JSON column holds what the stored
    row held when the body does not name it, and otherwise what the
    instance makes of the value of the body. *)
Theorem update_applies_body (m : model) (req : request) (db db' : database)
    (r : row) (a : attribute) :
  update_one m req db = (json 200 (Obj r), db') ->
  a ∈ define m -> primaryKey a = false -> attr_type a ≠ JSONB ->
  ∃ inst, Sequelize.findByPk m (params_id req) db = Ok (Some inst)
        ∧ field r (attr_name a) =
          match prop (body req) (attr_name a) with
          | Undefined => field inst (attr_name a)
          | Null => Null
          | v => instance_value a v
          end.
Proof.
  intros (inst & Hf & Hup)%update_one_200 Ha Hpk _.
  exists inst. split; [done|].
  apply update_steps in Hup as (_ & _ & _ & _ & _ & -> & _).
  rewrite assign_field; [|apply columns_NoDup|by apply define_rawAttributes].
  rewrite Hpk. by destruct (prop (body req) (attr_name a)).
Qed.

(** ** Reading back an update *)

(** X9.  When the update handler answers 200 to a body that does not name
    the key, the get handler, asked for the same identifier on the
    database the update left, answers 200 with a row of the same columns.
    A column of the model other than the JSON column holds in that row
    what it holds in the answer of the update when the body does not name
    it, and otherwise what the database makes of the value of the body. *)
Theorem update_then_get (m : model) (req req' : request) (db db' : database)
    (r : row) :
  consistent db ->
  update_one m req db = (json 200 (Obj r), db') ->
  params_id req' = params_id req ->
  prop (body req) (attr_name (primaryKeyAttribute m)) = Undefined ->
  ∃ r', get_one m req' db' = (json 200 (Obj r'), db')
      ∧ r'.*1 = r.*1
      ∧ ∀ a, a ∈ define m -> attr_type a ≠ JSONB ->
          match prop (body req) (attr_name a) with
          | Undefined => field r' (attr_name a) = field r (attr_name a)
          | Null => field r' (attr_name a) = Null
          | v => column_value a v = Ok (field r' (attr_name a))
          end.
Proof.
  intros Hc (inst & Hf & Hup)%update_one_200 Hid Hbody.
  apply findByPk_Some_key in Hf as (k & Hk & Hin & Hreach).
  destruct (Hc _ _ _ Hin) as [Hkey _].
  pose proof (update_ok _ _ _ _ _ _ k Hup Hkey (mk_is_Some _ _ Hin))
    as (r0 & _ & Hcols & Hrows & _ & Hreach').
  apply update_steps in Hup as (r1 & r2 & Hm & _ & Hl & -> & Hdb').
  rewrite Hkey, bool_decide_eq_true_2 in Hdb' by (by rewrite Hin).
  assert (r0 = r2) as ->.
  { rewrite Hdb', table_of_with_table in Hrows. simpl in Hrows.
    apply (f_equal (lookup k)) in Hrows. rewrite !lookup_insert_eq in Hrows.
    by injection Hrows. }
  exists r2. split_and!.
  - unfold get_one. rewrite Hid, (findByPk_key _ _ _ k); [|congruence|done].
    by rewrite Hrows, lookup_insert_eq.
  - by rewrite assign_keys.
  - intros a Ha _.
    apply link_all_spec in Hl as [_ Hfields].
    rewrite Hfields by (intros; by apply (define_not_foreignKey m)).
    pose proof (merge_field _ _ _ _ a (columns_NoDup m) Hm
                  (define_rawAttributes m a Ha)) as Hf.
    rewrite assign_field; [|apply columns_NoDup|by apply define_rawAttributes].
    destruct (primaryKey a) eqn:Hpk.
    + assert (attr_name a = attr_name (primaryKeyAttribute m)) as Hname.
      { destruct (decide (attr_name a = attr_name (primaryKeyAttribute m)));
          [done|]. exfalso. revert Ha Hpk n. clear.
        destruct m; vm_compute; intros Ha;
          repeat (apply elem_of_cons in Ha as [->|Ha]); try done;
          by apply elem_of_nil in Ha. }
      rewrite Hname in *. rewrite Hbody in *. by injection Hf.
    + unfold Sequelize.validate in Hf.
      destruct (prop (body req) (attr_name a)); by simplify_eq.
Qed.

(** ** No dangling references *)

Lemma references_cases (m : model) :
  references m = [] ∨ ∃ a, references m = [a].
Proof. destruct m; vm_compute; eauto. Qed.

Lemma dependents_cases (m : model) :
  dependents m = [] ∨ ∃ a, dependents m = [a].
Proof. destruct m; vm_compute; eauto. Qed.

Lemma association_by_child (a c : association) :
  a ∈ associations -> c ∈ associations -> child a = child c -> a = c.
Proof.
  unfold associations. intros Ha Hc.
  repeat (apply elem_of_cons in Ha as [->|Ha]); [..|by apply elem_of_nil in Ha];
    repeat (apply elem_of_cons in Hc as [->|Hc]); try done;
    by apply elem_of_nil in Hc.
Qed.

Lemma foreignKey_column (m : model) (a : association) :
  a ∈ references m -> foreignKey a ∈ attr_name <$> rawAttributes m.
Proof.
  intros Ha. unfold rawAttributes. rewrite fmap_app. apply elem_of_app. right.
  rewrite <- list_fmap_compose. apply list_elem_of_fmap. by exists a.
Qed.

Lemma refers_mono (db db' : database) (a : association) (v : jsval) :
  (∀ k, is_Some (rows (table_of (parent a) db) !! k) ->
        v = pk_value k ->
        is_Some (rows (table_of (parent a) db') !! k)) ->
  refers db a v -> refers db' a v.
Proof.
  intros Hmono [->|(k & Hv & Hk & Hin)]; [by left|].
  right. exists k. split_and!; [done..|]. by apply Hmono.
Qed.

Lemma jsval_eqb_pk_value (k k' : pk) :
  jsval_eqb (pk_value k') (pk_value k) = bool_decide (k' = k).
Proof.
  case_bool_decide as H.
  - subst. apply jsval_eqb_refl.
  - apply jsval_eqb_neq. intros Heq. apply H. by destruct k, k'; simplify_eq.
Qed.

Lemma link_refers (db : database) (r r' : row) (a : association) :
  foreignKey a ∈ r.*1 ->
  Sequelize.link db r a = Ok r' ->
  refers db a (field r' (foreignKey a)).
Proof.
  unfold Sequelize.link. intros Hin H.
  destruct (field r (foreignKey a)) eqn:Hf;
    try (injection H as <-; left; by rewrite Hf);
    (destruct (coerce_key (key_type (parent a)) _) as [k|] eqn:Hk; [|done];
     case_bool_decide as Hp; [|done]; injection H as <-;
     rewrite field_set_field_eq by done;
     right; exists k; split_and!; [done| |done];
     by eapply coerce_key_pk_value).
Qed.

Lemma link_all_refers (m : model) (db : database) (r r' : row) (a : association) :
  r.*1 = attr_name <$> rawAttributes m ->
  Sequelize.link_all db r (references m) = Ok r' ->
  a ∈ references m ->
  refers db a (field r' (foreignKey a)).
Proof.
  intros Hcols Hl Ha.
  destruct (references_cases m) as [Hnil|[c Hc]].
  - rewrite Hnil in Ha. by apply elem_of_nil in Ha.
  - pose proof (foreignKey_column m a Ha) as Hcol.
    rewrite Hc in Ha, Hl. apply list_elem_of_singleton in Ha as ->. simpl in Hl.
    destruct (Sequelize.link db r c) as [r1|] eqn:H1; simpl in Hl; [|done].
    injection Hl as <-. apply link_refers in H1; [done|by rewrite Hcols].
Qed.

Lemma create_refers (m : model) (values : jsval) (db db' : database) (r : row)
    (a : association) :
  Sequelize.create m values db = (Ok r, db') ->
  a ∈ references m ->
  refers db a (field r (foreignKey a)).
Proof.
  intros (r0 & k & db1 & Hb & _ & Hdb1 & _ & _ & Hl & _)%create_steps Ha.
  assert (Hrows : ∀ m', rows (table_of m' db1) = rows (table_of m' db)).
  { eapply create_chosen.
    destruct Hdb1 as [(? & ? & ?)|(? & ? & ? & ?)]; [left|right]; eauto. }
  eapply refers_mono; [|eapply link_all_refers; [|exact Hl|done]].
  - intros k0 Hk0 _. by rewrite <- Hrows.
  - rewrite keys_set_field. by eapply build_keys.
Qed.

Lemma update_refers (m : model) (inst : row) (values : jsval) (db : database)
    (r1 r2 : row) (a : association) :
  Sequelize.merge (rawAttributes m) inst values = Ok r1 ->
  Sequelize.link_all db r1 (references m) = Ok r2 ->
  a ∈ references m ->
  refers db a (field r2 (foreignKey a)).
Proof.
  intros Hm Hl Ha. eapply link_all_refers; [|exact Hl|done]. by eapply merge_keys.
Qed.

(** Storing a row that refers only to stored rows, under a key of its
    table, keeps the references of all tables sound. *)
Lemma referential_insert (m : model) (k : pk) (r : row) (db db' : database) :
  rows (table_of m db') = <[k := r]> (rows (table_of m db)) ->
  (∀ m', m ≠ m' -> table_of m' db' = table_of m' db) ->
  (∀ a, a ∈ references m -> refers db a (field r (foreignKey a))) ->
  referential db -> referential db'.
Proof.
  intros Hrows Hothers Hr Href a k0 r0 Ha Hin.
  assert (Hmono : ∀ m' k', is_Some (rows (table_of m' db) !! k') ->
                           is_Some (rows (table_of m' db') !! k')).
  { intros m' k' Hk'. destruct (decide (m = m')) as [<-|Hne].
    - rewrite Hrows, lookup_insert. by case_decide.
    - by rewrite Hothers. }
  eapply refers_mono; [intros; by apply Hmono|].
  destruct (decide (m = child a)) as [->|Hne].
  - rewrite Hrows, lookup_insert in Hin. case_decide.
    + injection Hin as <-. apply Hr. by apply references_spec.
    + by eapply Href.
  - rewrite Hothers in Hin by done. by eapply Href.
Qed.

Lemma referential_rows (db db' : database) :
  (∀ m, rows (table_of m db') = rows (table_of m db)) ->
  referential db -> referential db'.
Proof.
  intros H Href a k r Ha. rewrite H. intros Hin.
  eapply refers_mono; [|by eapply Href]. intros k0. by rewrite H.
Qed.

Lemma referential_synced : referential synced.
Proof. intros a k r _. by destruct (child a). Qed.

Lemma referential_create (m : model) (values : jsval) (db : database) :
  referential db -> referential (Sequelize.create m values db).2.
Proof.
  intros Href. destruct (Sequelize.create m values db) as [[r|e] db'] eqn:H; simpl.
  - pose proof (λ a, create_refers m values db db' r a H) as Hr.
    apply create_ok in H as (k & _ & _ & Hrows & Hothers & _).
    by eapply referential_insert.
  - eapply referential_rows; [|done]. by eapply create_throw.
Qed.

Lemma referential_update (m : model) (inst : row) (values : jsval) (db : database) :
  referential db -> referential (Sequelize.update m inst values db).2.
Proof.
  intros Href. destruct (Sequelize.update m inst values db) as [[r|e] db'] eqn:H; simpl.
  - apply update_steps in H as (r1 & r2 & Hm & _ & Hl & _ & ->).
    pose proof (λ a, update_refers m inst values db r1 r2 a Hm Hl) as Hr.
    destruct (Sequelize.key_of m inst) as [k|]; [|done].
    case_bool_decide; [|done].
    eapply (referential_insert m k r2); [..|done|done].
    + by rewrite table_of_with_table.
    + intros m' Hm'. by rewrite table_of_with_table_ne.
  - by apply update_throw in H as ->.
Qed.

Lemma referential_destroy (m : model) (inst : row) (db : database) :
  referential db -> referential (Sequelize.destroy m inst db).2.
Proof.
  intros Href. unfold Sequelize.destroy.
  destruct (Sequelize.query db) as [[]|]; [|done].
  destruct (Sequelize.key_of m inst) as [k|]; [|done]. simpl.
  set (db1 := with_table m _ db).
  assert (Hkeep : ∀ m' k', is_Some (rows (table_of m' db) !! k') ->
            (m' = m -> k' ≠ k) ->
            is_Some (rows (table_of m' (foldl (Sequelize.orphan k) db1 (dependents m))) !! k')).
  { intros m' k' Hin Hne.
    rewrite <- not_eq_None_Some, (proj1 (orphans_lookup _ _ _ _ _)), not_eq_None_Some.
    unfold db1. destruct (decide (m = m')) as [<-|Hm'].
    - rewrite table_of_with_table. simpl. rewrite lookup_delete_ne; [done|].
      intros ->. by apply Hne.
    - by rewrite table_of_with_table_ne. }
  intros a k0 r0 Ha Hin.
  assert (Hold : ∃ r1, rows (table_of (child a) db) !! k0 = Some r1
            ∧ (r0 = r1 ∧ parent a ≠ m
               ∨ parent a = m
                 ∧ r0 = Sequelize.set_null (foreignKey a) (pk_value k) r1)).
  { destruct (dependents_cases m) as [Hnil|[c Hc]].
    - rewrite Hnil in Hin. simpl in Hin.
      assert (parent a ≠ m) as Hpa.
      { intros Hp. assert (a ∈ dependents m) as Hd by (by apply dependents_spec).
        rewrite Hnil in Hd. by apply elem_of_nil in Hd. }
      unfold db1 in Hin. destruct (decide (m = child a)) as [Hm|Hm].
      + rewrite <- Hm, table_of_with_table in Hin. simpl in Hin.
        apply lookup_delete_Some in Hin as [_ Hin]. rewrite <- Hm. eauto.
      + rewrite table_of_with_table_ne in Hin by done. eauto.
    - assert (c ∈ associations ∧ parent c = m) as [Hca Hcp].
      { apply dependents_spec. rewrite Hc. apply list_elem_of_here. }
      rewrite Hc in Hin. simpl in Hin. rewrite orphan_lookup in Hin.
      case_decide as Hch.
      + apply (association_by_child c a) in Hch as ->; [|done..].
        apply fmap_Some in Hin as (r1 & Hin & ->).
        assert (m ≠ child a) as Hm by (intros ->; by eapply parent_not_child).
        unfold db1 in Hin. rewrite table_of_with_table_ne in Hin by done. eauto.
      + assert (parent a ≠ m) as Hpa.
        { intros Hp. assert (a ∈ dependents m) as Hd by (by apply dependents_spec).
          rewrite Hc in Hd. apply list_elem_of_singleton in Hd. by subst. }
        unfold db1 in Hin. destruct (decide (m = child a)) as [Hm|Hm].
        * rewrite <- Hm, table_of_with_table in Hin. simpl in Hin.
          apply lookup_delete_Some in Hin as [_ Hin]. rewrite <- Hm. eauto.
        * rewrite table_of_with_table_ne in Hin by done. eauto. }
  destruct Hold as (r1 & Hr1 & [[-> Hpa]|[Hpa ->]]).
  - eapply refers_mono; [|by eapply Href].
    intros k' Hk' _. apply Hkeep; [done|]. by intros ?.
  - pose proof (Href a k0 r1 Ha Hr1) as [Hnull|(k' & Hv & Hk' & Hpres)].
    + left. unfold Sequelize.set_null. rewrite Hnull. by destruct k.
    + unfold Sequelize.set_null. rewrite Hv, jsval_eqb_pk_value.
      case_bool_decide as Hkk.
      * left. apply field_set_field_eq.
        destruct (decide (foreignKey a ∈ r1.*1)) as [|Hno]; [done|].
        apply field_absent in Hno. rewrite Hno in Hv. by destruct k'.
      * rewrite Hv. right. exists k'. split_and!; [done|by rewrite <- Hv|].
        apply Hkeep; [done|]. by intros _.
Qed.

Lemma referential_route (p : process) (r : route) (req : request) (db : database) :
  r ∈ routes p -> referential db -> referential (route_handler r req db).2.
Proof.
  intros Hr Hc.
  destruct (routes_handlers p r Hr)
    as [(m & _ & [->|[->|[->|[->| ->]]]])|(_ & [->| ->])].
  - rewrite create_one_outcome.
    pose proof (referential_create m (body req) db Hc) as H.
    by destruct (Sequelize.create m (body req) db) as [[?|?] ?].
  - unfold list_all. by destruct (Sequelize.findAll m db).
  - unfold get_one. by destruct (Sequelize.findByPk m (params_id req) db) as [[?|]|].
  - unfold update_one.
    destruct (Sequelize.findByPk m (params_id req) db) as [[inst|]|]; try done.
    pose proof (referential_update m inst (body req) db Hc) as H.
    by destruct (Sequelize.update m inst (body req) db) as [[?|?] ?].
  - unfold delete_one.
    destruct (Sequelize.findByPk m (params_id req) db) as [[inst|]|]; try done.
    pose proof (referential_destroy m inst db Hc) as H.
    by destruct (Sequelize.destroy m inst db) as [[[]|?] ?].
  - rewrite register_outcome. by destruct (destructure (body req)).
  - by destruct (login_outcome p req db) as [msg ->].
Qed.

(** X13.  In every database that the server can reach from the synced
    one, each row sits under its own primary key and has exactly the
    columns of its table, and each foreign key is NULL or the key of a
    stored row of the parent table: no request leaves a dangling
    reference, a delete of the parent included. *)
Theorem reachable_sound (p : process) (db : database) :
  reachable p db -> consistent db ∧ referential db.
Proof.
  induction 1 as [|req db out _ [IHc IHr] Happ|db state _ [IHc IHr]].
  - split; [apply consistent_synced|apply referential_synced].
  - split; [exact (consistent_app p req db out Happ IHc)|].
    unfold app in Happ. apply fmap_Some in Happ as ([r req'] & Hfind & ->).
    apply find_route_spec in Hfind as [Hr _]. simpl. unfold run.
    destruct (guarded r); [|by apply (referential_route p)].
    destruct (authenticateJWT p req'); [by apply (referential_route p)|done].
  - split.
    + eapply consistent_rows; [|exact IHc]. by intros [].
    + eapply referential_rows; [|exact IHr]. by intros [].
Qed.


(** ** Updates that change nothing, and reads *)









(** ** The sequence of an auto-increment key *)

Lemma orphans_next_id (k : pk) (l : list association) (db : database) (m : model) :
  next_id (table_of m (foldl (Sequelize.orphan k) db l)) = next_id (table_of m db).
Proof.
  revert db. induction l as [|a l IH]; intros db; simpl; [done|].
  rewrite IH. unfold Sequelize.orphan. destruct (decide (child a = m)) as [<-|Hne].
  - by rewrite table_of_with_table.
  - by rewrite table_of_with_table_ne.
Qed.

Lemma next_id_with_table (m m' : model) (t : table) (db : database) :
  next_id (table_of m db) ≤ next_id t ->
  next_id (table_of m' db) ≤ next_id (table_of m' (with_table m t db)).
Proof.
  intros H. destruct (decide (m = m')) as [<-|Hne].
  - by rewrite table_of_with_table.
  - by rewrite table_of_with_table_ne.
Qed.

Lemma create_next_id (m m' : model) (values : jsval) (db : database) :
  next_id (table_of m' db) ≤ next_id (table_of m' (Sequelize.create m values db).2).
Proof.
  unfold Sequelize.create.
  destruct (Sequelize.build (rawAttributes m) values); [|done].
  destruct (Sequelize.query db); [|done].
  destruct (List.find _ (references m)); [done|].
  match goal with |- context [match ?c with Ok _ => _ | Throw _ => _ end] =>
    destruct c as [[k db1]|] eqn:Hc end; [|done].
  assert (Hdb1 : ∀ m0, next_id (table_of m0 db) ≤ next_id (table_of m0 db1)).
  { intros m0. assert (db1 = db ∨
      db1 = with_table m (Table (rows (table_of m db)) (next_id (table_of m db) + 1)) db)
      as [->| ->] by (repeat case_match; simplify_eq; eauto); [done|].
    apply next_id_with_table. simpl. lia. }
  destruct (rows (table_of m db1) !! k); [by apply Hdb1|].
  destruct (Sequelize.link_all db1 _ (references m)); [|by apply Hdb1]. simpl.
  etrans; [apply Hdb1|]. by apply next_id_with_table.
Qed.

(** X16.  No request moves the sequence of a table back: the next key
    that an auto-increment table will hand out never decreases, so a key
    that the sequence has given is not given again, also after the row
    has been deleted. *)
Theorem sequence_never_goes_back (p : process) (r : route) (req : request)
    (db : database) (m' : model) :
  r ∈ routes p ->
  next_id (table_of m' db) ≤ next_id (table_of m' (route_handler r req db).2).
Proof.
  intros Hr.
  destruct (routes_handlers p r Hr)
    as [(m & _ & [->|[->|[->|[->| ->]]]])|(_ & [->| ->])].
  - rewrite create_one_outcome.
    pose proof (create_next_id m m' (body req) db) as H.
    by destruct (Sequelize.create m (body req) db) as [[?|?] ?].
  - unfold list_all. by destruct (Sequelize.findAll m db).
  - unfold get_one. by destruct (Sequelize.findByPk m (params_id req) db) as [[?|]|].
  - unfold update_one.
    destruct (Sequelize.findByPk m (params_id req) db) as [[inst|]|]; try done.
    assert (next_id (table_of m' db)
            ≤ next_id (table_of m' (Sequelize.update m inst (body req) db).2)) as H.
    { unfold Sequelize.update. repeat case_match; simpl; try done.
      by apply next_id_with_table. }
    by destruct (Sequelize.update m inst (body req) db) as [[?|?] ?].
  - unfold delete_one.
    destruct (Sequelize.findByPk m (params_id req) db) as [[inst|]|]; try done.
    assert (next_id (table_of m' db)
            ≤ next_id (table_of m' (Sequelize.destroy m inst db).2)) as H.
    { unfold Sequelize.destroy. repeat case_match; simpl; try done.
      rewrite orphans_next_id. by apply next_id_with_table. }
    by destruct (Sequelize.destroy m inst db) as [[[]|?] ?].
  - rewrite register_outcome. by destruct (destructure (body req)).
  - by destruct (login_outcome p req db) as [msg ->].
Qed.

(** X17.  A create request for an auto-increment model whose body gives
    no key stores the row under the next key of the sequence and moves the
    sequence on by one. *)
Theorem create_assigns_next_id (m : model) (req : request) (db db' : database)
    (r : row) :
  autoIncrement (primaryKeyAttribute m) = true ->
  stored (prop (body req) (attr_name (primaryKeyAttribute m))) = Null ->
  create_one m req db = (json 201 (Obj r), db') ->
  field r (attr_name (primaryKeyAttribute m)) = Num (next_id (table_of m db))
  ∧ rows (table_of m db') !! PkInt (next_id (table_of m db)) = Some r
  ∧ next_id (table_of m db') = next_id (table_of m db) + 1.
Proof.
  rewrite create_one_outcome. intros Hauto Hbody Hc.
  destruct (Sequelize.create m (body req) db) as [[r0|e] db0] eqn:Hcr; [|done].
  injection Hc as -> ->.
  apply create_steps in Hcr as (r1 & k & db1 & Hb & _ & Hdb1 & _ & _ & Hl & ->).
  assert (field r1 (attr_name (primaryKeyAttribute m)) = Null) as Hf.
  { pose proof (build_field _ _ _ (primaryKeyAttribute m) (columns_NoDup m) Hb
                  (proj1 (primaryKeyAttribute_column m))) as Hv.
    unfold Sequelize.validate in Hv.
    destruct (prop (body req) (attr_name (primaryKeyAttribute m))); by simplify_eq. }
  destruct Hdb1 as [(Hne & _)|(_ & _ & -> & ->)]; [done|].
  apply link_all_spec in Hl as [_ Hfields].
  rewrite !table_of_with_table. simpl. split_and!; [|by rewrite lookup_insert_eq|done].
  rewrite Hfields by (intros; by apply foreignKey_not_primaryKey).
  apply field_set_field_eq. apply build_keys in Hb. rewrite Hb.
  apply list_elem_of_fmap_2, primaryKeyAttribute_column.
Qed.

(** ** The token script, with a secret *)

Lemma truthy_Some (v : option string) (s : string) :
  truthy v = Some s -> truthy (Some s) = Some s.
Proof. destruct v as [[|? ?]|]; simpl; intros H; by simplify_eq. Qed.

(** X18.  The token script succeeds exactly when the environment gives a
    non-empty [ACCESS_TOKEN_SECRET]; the token it then logs carries the
    id and the username of the example user and an expiry one hour after
    the clock, and verifies under that secret until then. *)
Theorem token_js_issues (p : process) :
  ((∃ tok, token_js p = Ok tok) ↔ truthy (env p !! "ACCESS_TOKEN_SECRET") ≠ None)
  ∧ ∀ tok, token_js p = Ok tok ->
      prop (prop tok "payload") "id" = Num 123
      ∧ prop (prop tok "payload") "username" = Str "example_user"
      ∧ prop (prop tok "payload") "iat" = Num (clock p)
      ∧ prop (prop tok "payload") "exp" = Num (clock p + 3600)
      ∧ ∀ t, t < clock p + 3600 ->
          verify tok (env p !! "ACCESS_TOKEN_SECRET") t = Ok (prop tok "payload").
Proof.
  unfold token_js, accessTokenSecret, generateAccessToken.
  destruct (truthy (env p !! "ACCESS_TOKEN_SECRET")) as [secret|] eqn:Hs; simpl.
  - unfold sign. rewrite (truthy_Some _ _ Hs). simpl.
    change (timespan "1h") with (Some 3600). simpl. split.
    + split; [done|eauto].
    + intros tok [= <-]. cbn [prop field String.eqb Ascii.eqb Bool.eqb].
      split_and!; try done. intros t Ht. unfold verify. rewrite Hs.
      cbn [prop field String.eqb Ascii.eqb Bool.eqb negb].
      rewrite jsval_eqb_refl. simpl.
      change (Z.of_uint (Decimal.D1 Decimal.Nil)) with 1.
      by rewrite (proj2 (Z.leb_gt _ _)) by lia.
  - split; [|done]. split; [by intros [tok ?]|done].
Qed.


(** ** Repeating an update *)





End App.

(** * Concrete runs *)

Import Sample.

(** [POST /users] with a name and an address stores the row [alice]. *)
Example create_alice :
  create_one User
    (request_of POST ["users"] (Obj [("Name", Str "A"); ("Email", Str "a@x.com")]))
    synced
  = (json 201 (Obj alice), with_alice).
Proof. vm_compute. reflexivity. Qed.

Example create_transaction :
  create_one DocumentTransaction post_transaction synced
  = (json 201 (Obj transaction), with_transaction).
Proof. vm_compute. reflexivity. Qed.

Example delete_created_transaction :
  delete_one DocumentTransaction delete_transaction with_transaction
  = (send 204, without_transaction).
Proof. vm_compute. reflexivity. Qed.

(** The content of a document comes back as a buffer. *)
Example create_document :
  create_one Document post_document with_alice = (json 201 (Obj document), with_document).
Proof. vm_compute. reflexivity. Qed.

(** The blank before the identifier does not keep the database from
    reading it. *)
Example get_padded_run :
  get_one DocumentTransaction get_padded with_transaction
  = (json 200 (Obj transaction), with_transaction).
Proof. vm_compute. reflexivity. Qed.

(** The update answers with the number it was given, and the next read
    with the string that the column holds. *)
Example put_alice_6_run :
  update_one User put_alice_6 with_alice = (json 200 (Obj alice_6_shown), with_alice_6)
  ∧ get_one User get_alice with_alice_6 = (json 200 (Obj alice_6), with_alice_6).
Proof. split; vm_compute; reflexivity. Qed.

(** A value that the database cannot read costs no key of the sequence. *)
Example post_unreadable_owner_run :
  status (create_one Document post_unreadable_owner with_alice).1 = 400
  ∧ (create_one Document post_unreadable_owner with_alice).2 = with_alice.
Proof. split; vm_compute; reflexivity. Qed.

Example token_js_with_key :
  token_js hmac (Process {[ "ACCESS_TOKEN_SECRET" := "k" ]} 50) = Ok example_token.
Proof. vm_compute. reflexivity. Qed.

(** The scenario of the specification stops at its first step. *)
Example register_scenario :
  app hmac bcrypt_hash bcrypt_compare proc register_A synced
  = Some (json 400 (error "bcrypt is not defined"), synced).
Proof. vm_compute. reflexivity. Qed.

(** Even where [bcrypt] is declared, the row that register creates holds
    neither the name, nor the address, nor the hash. *)
Example register_with_bcrypt_declared :
  (register_in bcrypt_hash ("bcrypt" :: index_declarations) register_A synced).1
  = json 201 (Obj [("UserID", Num 1); ("Name", Null); ("Email", Null);
                   ("PhoneNumber", Null); ("LoginPIN", Null); ("DateOfBirth", Null);
                   ("AadhaarNumber", Null); ("PANNumber", Null); ("UserImage", Null)]).
Proof. vm_compute. reflexivity. Qed.

Example login_scenario :
  app hmac bcrypt_hash bcrypt_compare proc login_A with_alice
  = Some (json 400 (error "column User.email does not exist"), with_alice).
Proof. vm_compute. reflexivity. Qed.

(** Even where [jwt] is declared, the token of the login handler names
    nobody. *)
Example login_token_with_jwt_declared :
  login_token hmac ("jwt" :: index_declarations) proc alice
  = Ok (Obj [("header", Obj [("alg", Str "HS256"); ("typ", Str "JWT")]);
             ("payload", Obj [("iat", Num 1000); ("exp", Num 4600)]);
             ("signature",
              hmac "s3cret"
                (Arr [Obj [("alg", Str "HS256"); ("typ", Str "JWT")];
                      Obj [("iat", Num 1000); ("exp", Num 4600)]]))]).
Proof. vm_compute. reflexivity. Qed.

Example list_users_without_token :
  app hmac bcrypt_hash bcrypt_compare proc list_users with_alice
  = Some (send 401, with_alice).
Proof. vm_compute. reflexivity. Qed.

Example token_js_run :
  token_js hmac (Process ∅ 50)
  = Throw (ReferenceError "generateAccessTokenSecret is not defined").
Proof. vm_compute. reflexivity. Qed.

Example delete_while_offline :
  delete_one User (request_of DELETE ["users"; "1"] Null) offline
  = (json 500 (error "connect ECONNREFUSED"), offline).
Proof. vm_compute. reflexivity. Qed.

Example update_broken_reference :
  (update_one DocumentTransaction
     (request_of PUT ["documenttransactions"; "1"] (Obj [("DocumentID", Num 9)]))
     with_transaction).1
  = json 400 (error "insert or update violates foreign key constraint on DocumentID").
Proof. vm_compute. reflexivity. Qed.

(** ** Witnesses *)

Lemma by_id_not_found_witness :
  delete_one DocumentTransaction delete_transaction with_transaction
  = (send 204, without_transaction)
  ∧ get_one DocumentTransaction delete_transaction without_transaction
    = (json 404 (error "DocumentTransaction not found"), without_transaction)
  ∧ update_one DocumentTransaction delete_transaction without_transaction
    = (json 404 (error "DocumentTransaction not found"), without_transaction)
  ∧ delete_one DocumentTransaction delete_transaction without_transaction
    = (json 404 (error "DocumentTransaction not found"), without_transaction).
Proof.
  split; [vm_compute; reflexivity|].
  apply (by_id_not_found DocumentTransaction delete_transaction
           without_transaction (PkInt 1)).
  - vm_compute. reflexivity.
  - vm_compute. reflexivity.
  - right. exists with_transaction. split.
    + change with_transaction
        with (Sequelize.create DocumentTransaction (body post_transaction) synced).2.
      apply consistent_create, consistent_synced.
    + vm_compute. reflexivity.
Defined.

(** C5 as it is stated does not hold: no user was ever created under the
    identifier [abc], nor under [2147483648], and the three handlers
    answer them from their [catch] branches, with 500, 400 and 500. *)
Lemma by_id_not_found_counterexample :
  rows (Users synced) = ∅
  ∧ status (get_one User get_abc synced).1 = 500
  ∧ status (update_one User get_abc synced).1 = 400
  ∧ status (delete_one User get_abc synced).1 = 500
  ∧ status (get_one User get_beyond synced).1 = 500
  ∧ status (update_one User get_beyond synced).1 = 400
  ∧ status (delete_one User get_beyond synced).1 = 500.
Proof. split_and!; vm_compute; reflexivity. Qed.

Lemma not_found_writes_nothing_witness :
  (update_one User (request_of PUT ["users"; "7"] (Obj [("Name", Str "B")])) with_alice).2
  = with_alice
  ∧ (∀ k, unreachable with_alice = None ->
          coerce_key (key_type User)
            (params_id (request_of PUT ["users"; "7"] (Obj [("Name", Str "B")])))
          = Some k ->
          (update_one User (request_of PUT ["users"; "7"] (Obj [("Name", Str "B")]))
             with_alice).1
          = not_found User)
  ∧ (status (update_one User (request_of PUT ["users"; "7"] (Obj [("Name", Str "B")]))
               with_alice).1 = 404 ->
     (update_one User (request_of PUT ["users"; "7"] (Obj [("Name", Str "B")])) with_alice).1
     = not_found User).
Proof.
  apply (not_found_writes_nothing User (update_one User) _ with_alice).
  - apply list_elem_of_further, list_elem_of_here.
  - intros k Hk. vm_compute in Hk. injection Hk as <-. vm_compute. reflexivity.
Defined.


Lemma failure_taxonomy_witness :
  (failed (list_all User list_users offline).1 ->
     (∃ msg, content (list_all User list_users offline).1 = Some (error msg))
     ∧ status (list_all User list_users offline).1 ∈ [400; 404; 500]
     ∧ status (list_all User list_users offline).1 ∈ [500]
     ∧ (status (list_all User list_users offline).1 = 404 ->
        ∃ m, Some User = Some m
           ∧ Sequelize.findByPk m (params_id list_users) offline = Ok None))
  ∧ (∀ m e, Some User = Some m -> thrown OpList m list_users offline e ->
       (list_all User list_users offline).1 = json 500 (error (message e))).
Proof.
  apply (failure_taxonomy hmac bcrypt_hash bcrypt_compare proc
           (Route GET "users" false (Some User) true (list_all User))
           list_users offline).
  unfold routes, crud. simpl.
  do 6 apply list_elem_of_further. apply list_elem_of_here.
Defined.


Lemma auth_gate_witness :
  (∀ m, Some User = Some m -> m ∈ guarded_models -> authorization list_users = None ->
     (∀ h, run hmac proc true h list_users with_alice = (send 401, with_alice))
     ∧ (∀ req0,
          find_route hmac bcrypt_hash bcrypt_compare proc req0
          = Some (Route GET "users" false (Some User) true (list_all User), list_users) ->
          app hmac bcrypt_hash bcrypt_compare proc req0 with_alice
          = Some (send 401, with_alice)))
  ∧ (Some User = Some DocumentTransaction ->
     run hmac proc true (list_all User) list_users with_alice
     = list_all User list_users with_alice
     ∧ (∀ req0,
          find_route hmac bcrypt_hash bcrypt_compare proc req0
          = Some (Route GET "users" false (Some User) true (list_all User), list_users) ->
          app hmac bcrypt_hash bcrypt_compare proc req0 with_alice
          = Some (list_all User list_users with_alice))).
Proof.
  apply (auth_gate hmac bcrypt_hash bcrypt_compare proc
           (Route GET "users" false (Some User) true (list_all User))
           list_users with_alice).
  unfold routes, crud. simpl.
  do 6 apply list_elem_of_further. apply list_elem_of_here.
Defined.

Lemma token_js_without_secret_witness :
  accessTokenSecret (Process ∅ 50)
  = Throw (ReferenceError "generateAccessTokenSecret is not defined")
  ∧ token_js hmac (Process ∅ 50)
    = Throw (ReferenceError "generateAccessTokenSecret is not defined").
Proof.
  apply (token_js_without_secret hmac (Process ∅ 50)). reflexivity.
Defined.

(** ** Runs and witnesses for the further properties *)

Lemma with_alice_sound : consistent with_alice ∧ referential with_alice.
Proof.
  change with_alice with (Sequelize.create User (body post_alice) synced).2.
  split; [apply consistent_create, consistent_synced
         |apply referential_create, referential_synced].
Qed.

Lemma with_document_sound : consistent with_document ∧ referential with_document.
Proof.
  change with_document with (Sequelize.create Document (body post_document) with_alice).2.
  split; [apply consistent_create|apply referential_create]; apply with_alice_sound.
Qed.


(** Deleting a user keeps her document, which no longer names an owner. *)
Example delete_alice_run :
  delete_one User delete_alice with_document = (send 204, without_alice).
Proof. vm_compute. reflexivity. Qed.

(** The key and the unknown property of the body are not applied. *)
Example put_alice_B_run :
  update_one User put_alice_B with_alice = (json 200 (Obj alice_B), with_alice_B).
Proof. vm_compute. reflexivity. Qed.

Lemma dispatch_unique_witness :
  find_route hmac bcrypt_hash bcrypt_compare proc get_transaction
  = Some (Route GET "documenttransactions" true (Some DocumentTransaction) false
                (get_one DocumentTransaction),
          get_transaction).
Proof.
  apply (dispatch_unique hmac bcrypt_hash bcrypt_compare proc).
  - unfold routes, crud. simpl.
    do 22 apply list_elem_of_further. apply list_elem_of_here.
  - vm_compute. reflexivity.
Defined.

Lemma GET_reads_only_witness :
  (json 200 (Obj transaction), with_transaction).2 = with_transaction.
Proof.
  apply (GET_reads_only hmac bcrypt_hash bcrypt_compare proc get_transaction
           with_transaction (json 200 (Obj transaction), with_transaction)).
  - reflexivity.
  - vm_compute. reflexivity.
Defined.

Lemma handler_answers_witness :
  status (delete_one DocumentTransaction delete_transaction with_transaction).1
    ∈ statuses
  ∧ (content (delete_one DocumentTransaction delete_transaction with_transaction).1
     = None
     ↔ status (delete_one DocumentTransaction delete_transaction with_transaction).1
       = 204).
Proof.
  apply (handler_answers hmac bcrypt_hash bcrypt_compare proc
           (Route DELETE "documenttransactions" true (Some DocumentTransaction) false
                  (delete_one DocumentTransaction))
           delete_transaction with_transaction).
  unfold routes, crud. simpl.
  do 24 apply list_elem_of_further. apply list_elem_of_here.
Defined.

Lemma delete_one_effect_witness :
  ∃ k, coerce_key (key_type User) (params_id delete_alice) = Some k
     ∧ is_Some (rows (table_of User with_document) !! k)
     ∧ rows (table_of User without_alice) = delete k (rows (table_of User with_document))
     ∧ ∀ m', User ≠ m' ->
         dom (rows (table_of m' without_alice)) = dom (rows (table_of m' with_document)).
Proof.
  apply (delete_one_effect User delete_alice with_document without_alice).
  - apply with_document_sound.
  - vm_compute. reflexivity.
Defined.

Lemma failed_write_keeps_rows_witness :
  rows (table_of DocumentTransaction
          (update_one DocumentTransaction put_broken_reference with_transaction).2)
  = rows (table_of DocumentTransaction with_transaction).
Proof.
  apply (failed_write_keeps_rows DocumentTransaction DocumentTransaction
           (update_one DocumentTransaction)).
  - apply list_elem_of_further, list_elem_of_here.
  - vm_compute. discriminate.
Defined.

Lemma update_then_get_witness :
  ∃ r', get_one User get_alice with_alice_6 = (json 200 (Obj r'), with_alice_6)
      ∧ r'.*1 = alice_6_shown.*1
      ∧ ∀ a, a ∈ define User -> attr_type a ≠ JSONB ->
          match prop (body put_alice_6) (attr_name a) with
          | Undefined => field r' (attr_name a) = field alice_6_shown (attr_name a)
          | Null => field r' (attr_name a) = Null
          | v => column_value a v = Ok (field r' (attr_name a))
          end.
Proof.
  apply (update_then_get User put_alice_6 get_alice with_alice).
  - apply with_alice_sound.
  - vm_compute. reflexivity.
  - reflexivity.
  - reflexivity.
Defined.

Lemma create_then_list_witness :
  ∃ rs, list_all DocumentTransaction list_transactions with_transaction
        = (json 200 (Arr rs), with_transaction)
      ∧ Obj transaction ∈ rs.
Proof.
  apply (create_then_list DocumentTransaction post_transaction list_transactions synced).
  vm_compute. reflexivity.
Defined.


Lemma update_applies_body_witness :
  ∃ inst, Sequelize.findByPk User (params_id put_alice_6) with_alice = Ok (Some inst)
        ∧ field alice_6_shown "Name" = instance_value (column "Name" STRING) (Num 6).
Proof.
  apply (update_applies_body User put_alice_6 with_alice with_alice_6 alice_6_shown
           (column "Name" STRING)).
  - vm_compute. reflexivity.
  - apply list_elem_of_further, list_elem_of_here.
  - reflexivity.
  - discriminate.
Defined.

Lemma reachable_sound_witness :
  consistent with_transaction ∧ referential with_transaction.
Proof.
  apply (reachable_sound hmac bcrypt_hash bcrypt_compare proc with_transaction).
  change with_transaction with (json 201 (Obj transaction), with_transaction).2.
  apply (reachable_request hmac bcrypt_hash bcrypt_compare proc post_transaction synced).
  - apply reachable_synced.
  - vm_compute. reflexivity.
Defined.



Lemma sequence_never_goes_back_witness :
  next_id (table_of DocumentTransaction synced)
  ≤ next_id (table_of DocumentTransaction
               (create_one DocumentTransaction post_transaction synced).2).
Proof.
  apply (sequence_never_goes_back hmac bcrypt_hash bcrypt_compare proc
           (Route POST "documenttransactions" false (Some DocumentTransaction) false
                  (create_one DocumentTransaction))
           post_transaction synced DocumentTransaction).
  unfold routes, crud. simpl.
  do 20 apply list_elem_of_further. apply list_elem_of_here.
Defined.

Lemma create_assigns_next_id_witness :
  field transaction (attr_name (primaryKeyAttribute DocumentTransaction))
  = Num (next_id (table_of DocumentTransaction synced))
  ∧ rows (table_of DocumentTransaction with_transaction)
      !! PkInt (next_id (table_of DocumentTransaction synced)) = Some transaction
  ∧ next_id (table_of DocumentTransaction with_transaction)
    = next_id (table_of DocumentTransaction synced) + 1.
Proof.
  apply (create_assigns_next_id DocumentTransaction post_transaction synced
           with_transaction transaction).
  - reflexivity.
  - reflexivity.
  - vm_compute. reflexivity.
Defined.

